(** * TextPreprocessor

    tensorflow_lite_support/cc/task/processor/text_preprocessor.cc

    A shallow embedding of the text preprocessor of the TFLite Task Library
    and the proofs of its specified properties.

    Conventions of the embedding:
    - C++ [int] and [size_t] values are integers in [Z]; the conversion of an
      [int] to [size_t] is written out as a reduction modulo [2^64];
    - [std::vector<int>] is [list Z]; [operator[]] is a checked access, an
      index outside the vector has no defined result;
    - a computation with no defined result (a null pointer dereferenced, an
      index out of range, a C++ exception leaving the function) is [None];
      a computation that returns is [Some] of what it returns;
    - [absl::Status] is a record, [StatusOr<T>] a two-constructor sum;
    - the members of the preprocessor are a record that every operation takes
      and gives back; the tensors of the engine are a list that every write
      updates at the written index, so that two roles resolved to the same
      index share one buffer. *)

From Stdlib Require Import ZArith Lia Ascii String.
From stdpp Require Import base option list strings pretty gmap.

Open Scope Z_scope.

(* ================================================================== *)
(** ** Machine integers *)

Definition INT_MAX : Z := 2147483647.
Definition INT_MIN : Z := -2147483648.
Definition SIZE_MODULUS : Z := 2 ^ 64.

(** [static_cast<size_t>(z)] for an [int] [z], and the implicit conversion
    of an [int] to [size_t]. *)
Definition to_size_t (z : Z) : Z := z mod SIZE_MODULUS.

(** [a - b] on [int]: signed overflow has no defined result. *)
Definition int_sub (a b : Z) : option Z :=
  let r := a - b in
  if (INT_MIN <=? r) && (r <=? INT_MAX) then Some r else None.

(** [std::vector<int>(n, v)] for a [size_t] [n].  Every count that reaches
    this constructor in the file is the conversion of an [int]: it is at
    most [INT_MAX], or it is at least [2^64 - 2^31], which is above
    [max_size()] and makes the constructor throw [std::length_error]. *)
Definition std_vector (n : Z) (v : Z) : option (list Z) :=
  if n <=? INT_MAX then Some (replicate (Z.to_nat n) v) else None.

(** [vec[i] = v]: defined only inside the vector. *)
Definition vector_set (i : nat) (v : Z) (vec : list Z) : option (list Z) :=
  if decide (i < length vec)%nat then Some (<[i:=v]> vec) else None.

(* ================================================================== *)
(** ** absl: strings and status *)

(** [absl::ascii_tolower]. *)
Definition ascii_tolower (c : ascii) : ascii :=
  let n := Ascii.N_of_ascii c in
  if ((65 <=? n) && (n <=? 90))%N then Ascii.ascii_of_N (n + 32) else c.

(** [absl::AsciiStrToLower]. *)
Fixpoint AsciiStrToLower (s : string) : string :=
  match s with
  | EmptyString => EmptyString
  | String c r => String (ascii_tolower c) (AsciiStrToLower r)
  end.

(** The [%d] conversion of [absl::StrFormat] and the integer case of
    [absl::StrCat]. *)
Definition fmt_d (z : Z) : string := pretty z.

Inductive StatusCode := kOk | kInvalidArgument | kInternal.

(** Modelled from the spec: [TfLiteSupportStatus] (cc/common.h, not under
    src/), the typed part of a failure; the codes are those the file
    passes, and [kError], the default argument of
    [CreateStatusWithPayload]. *)
Inductive TfLiteSupportStatus :=
  | kError
  | kInvalidNumOutputTensorsError
  | kInvalidInputTensorTypeError.

Record Status := mkStatus {
  code : StatusCode;
  message : string;
  payload : option TfLiteSupportStatus
}.

Definition OkStatus : Status := mkStatus kOk EmptyString None.

(** Modelled from the spec: [CreateStatusWithPayload] (cc/common.h, not
    under src/): a failure made of a code, a message and a typed payload. *)
Definition CreateStatusWithPayload
    (c : StatusCode) (msg : string) (tfls : TfLiteSupportStatus) : Status :=
  mkStatus c msg (Some tfls).

Definition ok (s : Status) : bool :=
  match code s with kOk => true | _ => false end.

Inductive StatusOr (A : Type) :=
  | StatusOk (a : A)
  | StatusErr (s : Status).
Arguments StatusOk {A} a.
Arguments StatusErr {A} s.

(* ================================================================== *)
(** ** TFLite tensors and the engine *)

Inductive TfLiteType :=
  | kTfLiteNoType | kTfLiteFloat32 | kTfLiteInt32 | kTfLiteUInt8
  | kTfLiteInt64 | kTfLiteString | kTfLiteBool | kTfLiteInt16
  | kTfLiteInt8 | kTfLiteFloat16 | kTfLiteFloat64.

(** [TfLiteTypeGetName] of the TFLite C API. *)
Definition TfLiteTypeGetName (t : TfLiteType) : string :=
  match t with
  | kTfLiteNoType => "NOTYPE" | kTfLiteFloat32 => "FLOAT32"
  | kTfLiteInt32 => "INT32" | kTfLiteUInt8 => "UINT8"
  | kTfLiteInt64 => "INT64" | kTfLiteString => "STRING"
  | kTfLiteBool => "BOOL" | kTfLiteInt16 => "INT16"
  | kTfLiteInt8 => "INT8" | kTfLiteFloat16 => "FLOAT16"
  | kTfLiteFloat64 => "FLOAT64"
  end.

Definition is_string (t : TfLiteType) : bool :=
  match t with kTfLiteString => true | _ => false end.
Definition is_int32 (t : TfLiteType) : bool :=
  match t with kTfLiteInt32 => true | _ => false end.

(** What a buffer holds. *)
Inductive TensorData :=
  | Unwritten
  | IntData (v : list Z)
  | StringData (s : string).

(** [TfLiteTensor]: [dims] is [dims->data] over [dims->size] entries,
    [bytes] the size of the storage. *)
Record TfLiteTensor := mkTensor {
  name : string;
  type : TfLiteType;
  dims : list Z;
  bytes : Z;
  data : TensorData
}.

Definition set_data (d : TensorData) (t : TfLiteTensor) : TfLiteTensor :=
  mkTensor (name t) (type t) (dims t) (bytes t) d.

(** The input tensors of the interpreter, by input index. *)
Abbreviation Inputs := (list TfLiteTensor).

(** Modelled from the spec: [TfLiteEngine::GetInput]
    (cc/task/core/tflite_engine.h, not under src/), called as
    [engine_->GetInput(engine_->interpreter(), index)]: the engine resolves
    a buffer index to the buffer; an index outside the inputs has no
    defined result. *)
Definition GetInput (inputs : Inputs) (index : Z) : option TfLiteTensor :=
  if 0 <=? index then inputs !! Z.to_nat index else None.

(** A write through the pointer [GetInput] returned. *)
Definition set_input (index : Z) (t : TfLiteTensor) (inputs : Inputs)
    : Inputs :=
  <[Z.to_nat index := t]> inputs.

(** Modelled from the spec: [PopulateTensor] for a [std::vector<int>]
    (task_utils.h, not under src/).  The write fails when the buffer cannot
    accept the produced array, by its element type or by its size; otherwise
    the buffer holds the array. *)
Definition PopulateTensor_ints (v : list Z) (t : TfLiteTensor)
    : StatusOr TfLiteTensor :=
  if negb (is_int32 (type t)) then
    StatusErr (CreateStatusWithPayload kInternal
      ("Type mismatch for tensor " +:+ name t +:+ ". Requested INT32, got "
         +:+ TfLiteTypeGetName (type t) +:+ ".") kError)
  else if negb (bytes t =? 4 * Z.of_nat (length v)) then
    StatusErr (CreateStatusWithPayload kInternal
      ("tensor->bytes (" +:+ fmt_d (bytes t) +:+ ") != bytes ("
         +:+ fmt_d (4 * Z.of_nat (length v)) +:+ ")") kError)
  else StatusOk (set_data (IntData v) t).

(** Modelled from the spec: [PopulateTensor] for a [std::string]
    (task_utils.h, not under src/): the text is written unchanged into a
    string-typed buffer. *)
Definition PopulateTensor_string (s : string) (t : TfLiteTensor)
    : StatusOr TfLiteTensor :=
  if negb (is_string (type t)) then
    StatusErr (CreateStatusWithPayload kInternal
      ("Type mismatch for tensor " +:+ name t +:+ ". Requested STRING, got "
         +:+ TfLiteTypeGetName (type t) +:+ ".") kError)
  else StatusOk (set_data (StringData s) t).

(** [PopulateTensor(x, tensor)] where [tensor] is the input at [index]: the
    status the call returns and the inputs after it. *)
Definition populate_tensor (w : TfLiteTensor -> StatusOr TfLiteTensor)
    (index : Z) (inputs : Inputs) : option (Status * Inputs) :=
  t ← GetInput inputs index;
  match w t with
  | StatusOk t' => Some (OkStatus, set_input index t' inputs)
  | StatusErr s => Some (s, inputs)
  end.

(* ================================================================== *)
(** ** Tokenizers *)

(** Modelled from the spec: the accessors [RegexTokenizer]
    (cc/text/tokenizers/regex_tokenizer.h, not under src/) adds to
    [Tokenizer]: the start, pad and unknown ids.  Each C++ accessor returns
    [bool] and writes the id through its argument when it returns [true]:
    [Some id] here, [None] for [false]. *)
Record RegexTokenizer := mkRegexTokenizer {
  GetStartToken : option Z;
  GetPadToken : option Z;
  GetUnknownToken : option Z
}.

(** Modelled from the spec: the [Tokenizer] interface
    (cc/text/tokenizers/tokenizer.h, not under src/): tokenization into an
    ordered sequence of subwords and the lookup of an optional id.
    [Tokenize] gives [TokenizerResult::subwords];
    [LookupId] is [Some id] when the C++ method returns [true] and writes
    [id], [None] when it returns [false] and leaves its argument alone;
    [as_RegexTokenizer] is what [dynamic_cast<RegexTokenizer*>] finds, [None]
    for a tokenizer of another class. *)
Record Tokenizer := mkTokenizer {
  Tokenize : string -> list string;
  LookupId : string -> option Z;
  as_RegexTokenizer : option RegexTokenizer
}.

(* ================================================================== *)
(** ** Constants of the file *)

Definition kTokenizerProcessUnitIndex : Z := 0.
Definition kIdsTensorName : string := "ids".
Definition kMaskTensorName : string := "mask".
Definition kSegmentIdsTensorName : string := "segment_ids".
Definition kClassificationToken : string := "[CLS]".
Definition kSeparator : string := "[SEP]".

(* ================================================================== *)
(** ** The preprocessor *)

(** Modelled from the spec: [TokenizerType] (text_preprocessor.h, not under
    src/), a closed tag.  The three values are those the file assigns and
    dispatches on; the [default:] branch of [Preprocess] serves no value
    of this type. *)
Inductive TokenizerType := kNone | kRegex | kBert.

(** The members of [TextPreprocessor] the file reads and writes (declared
    in text_preprocessor.h and processor.h, not under src/).  [tokenizer_]
    is the [std::unique_ptr<Tokenizer>]: [None] is the null pointer,
    [Some tk] the pointer that owns [tk]. *)
Record TextPreprocessor := mkTextPreprocessor {
  tensor_indices_ : list Z;
  tokenizer_ : option Tokenizer;
  tokenzier_type_ : TokenizerType;
  ids_tensor_index_ : Z;
  mask_tensor_index_ : Z;
  segment_ids_tensor_index_ : Z;
  bert_max_seq_len_ : Z
}.

Definition set_tokenizer_ (tk : option Tokenizer) (p : TextPreprocessor) :=
  mkTextPreprocessor (tensor_indices_ p) tk (tokenzier_type_ p)
    (ids_tensor_index_ p) (mask_tensor_index_ p)
    (segment_ids_tensor_index_ p) (bert_max_seq_len_ p).

Definition set_tokenzier_type_ (ty : TokenizerType) (p : TextPreprocessor) :=
  mkTextPreprocessor (tensor_indices_ p) (tokenizer_ p) ty
    (ids_tensor_index_ p) (mask_tensor_index_ p)
    (segment_ids_tensor_index_ p) (bert_max_seq_len_ p).

Definition set_bert_indices_ (ids mask seg : Z) (p : TextPreprocessor) :=
  mkTextPreprocessor (tensor_indices_ p) (tokenizer_ p) (tokenzier_type_ p)
    ids mask seg (bert_max_seq_len_ p).

Definition set_bert_max_seq_len_ (len : Z) (p : TextPreprocessor) :=
  mkTextPreprocessor (tensor_indices_ p) (tokenizer_ p) (tokenzier_type_ p)
    (ids_tensor_index_ p) (mask_tensor_index_ p)
    (segment_ids_tensor_index_ p) len.

(** Modelled from the spec: [Processor::GetTensor()] (processor.h, not
    under src/): the buffer behind the first managed index,
    [tensor_indices_.at(0)]. *)
Definition GetTensorIndex (p : TextPreprocessor) : option Z :=
  tensor_indices_ p !! 0%nat.

Definition GetTensor (p : TextPreprocessor) (inputs : Inputs)
    : option TfLiteTensor :=
  index ← GetTensorIndex p; GetInput inputs index.

(** [TextPreprocessor::GetLastDimSize]:
    [tensor->dims->data[tensor->dims->size - 1]]. *)
Definition GetLastDimSize (inputs : Inputs) (tensor_index : Z) : option Z :=
  tensor ← GetInput inputs tensor_index;
  if decide (length (dims tensor) = 0)%nat then None
  else dims tensor !! (length (dims tensor) - 1)%nat.

(** [RETURN_IF_ERROR(step); rest]. *)
Definition return_if_error
    (step : option (Status * Inputs))
    (rest : Inputs -> option (Status * Inputs)) : option (Status * Inputs) :=
  '(s, inputs) ← step;
  if ok s then rest inputs else Some (s, inputs).

(* ------------------------------------------------------------------ *)
(** *** BertPreprocess *)

(** [query_tokens]: the span over the first
    [min(static_cast<size_t>(bert_max_seq_len_ - 2), subwords.size())]
    subwords; [k] is [bert_max_seq_len_ - 2]. *)
Definition query_tokens (k : Z) (subwords : list string) : list string :=
  take (Z.to_nat (Z.min (to_size_t k) (Z.of_nat (length subwords)))) subwords.

(** [tokens]: the classification token, the query tokens, the separator. *)
Definition bert_tokens (k : Z) (subwords : list string) : list string :=
  kClassificationToken :: query_tokens k subwords ++ [kSeparator].

(** The loop [for (int i = 0; i < tokens.size(); ++i)], entered at [i] with
    the tokens from [i] on: [LookupId(tokens[i], &input_ids[i])] writes the
    id when the lookup succeeds, [input_mask[i] = 1]. *)
Fixpoint bert_fill (tk : Tokenizer) (tokens : list string) (i : nat)
    (input_ids input_mask : list Z) : option (list Z * list Z) :=
  match tokens with
  | [] => Some (input_ids, input_mask)
  | token :: rest =>
      if decide (i < length input_ids)%nat then
        let input_ids' :=
          match LookupId tk token with
          | Some id => <[i:=id]> input_ids
          | None => input_ids
          end in
        input_mask' ← vector_set i 1 input_mask;
        bert_fill tk rest (S i) input_ids' input_mask'
      else None
  end.

(** The three arrays [BertPreprocess] builds from the text:
    [input_ids], [input_mask] and the segment ids. *)
Definition bert_encode (tk : Tokenizer) (bert_max_seq_len : Z)
    (input_text : string) : option (list Z * list Z * list Z) :=
  let processed_input := AsciiStrToLower input_text in
  let subwords := Tokenize tk processed_input in
  k ← int_sub bert_max_seq_len 2;
  let tokens := bert_tokens k subwords in
  input_ids ← std_vector (to_size_t bert_max_seq_len) 0;
  input_mask ← std_vector (to_size_t bert_max_seq_len) 0;
  '(input_ids, input_mask) ← bert_fill tk tokens 0 input_ids input_mask;
  segment_ids ← std_vector (to_size_t bert_max_seq_len) 0;
  Some (input_ids, input_mask, segment_ids).

Definition BertPreprocess (p : TextPreprocessor) (inputs : Inputs)
    (input_text : string) : option (Status * TextPreprocessor * Inputs) :=
  _ ← GetInput inputs (ids_tensor_index_ p);
  _ ← GetInput inputs (mask_tensor_index_ p);
  _ ← GetInput inputs (segment_ids_tensor_index_ p);
  tk ← tokenizer_ p;
  '(input_ids, input_mask, segment_ids) ←
    bert_encode tk (bert_max_seq_len_ p) input_text;
  '(s, inputs') ←
    return_if_error
      (populate_tensor (PopulateTensor_ints input_ids)
         (ids_tensor_index_ p) inputs)
      (λ inputs,
        return_if_error
          (populate_tensor (PopulateTensor_ints input_mask)
             (mask_tensor_index_ p) inputs)
          (λ inputs,
            return_if_error
              (populate_tensor (PopulateTensor_ints segment_ids)
                 (segment_ids_tensor_index_ p) inputs)
              (λ inputs, Some (OkStatus, inputs))));
  Some (s, p, inputs').

(* ------------------------------------------------------------------ *)
(** *** RegexPreprocess *)

(** [max_sentence_length]:
    [dims->size == 2 ? dims->data[1] : dims->data[0]], converted to
    [size_t]. *)
Definition regex_max_sentence_length (dims : list Z) : option Z :=
  if decide (length dims = 2)%nat
  then to_size_t <$> dims !! 1%nat
  else to_size_t <$> dims !! 0%nat.

(** The loop over [result.subwords], entered with the subwords from [i] on
    and the write position [input_token_index]; it runs while
    [input_token_index < max_sentence_length]. *)
Fixpoint regex_fill (tk : Tokenizer) (unknown_token_id : Z)
    (max_sentence_length : Z) (subwords : list string)
    (input_token_index : nat) (input_tokens : list Z) : option (list Z) :=
  match subwords with
  | [] => Some input_tokens
  | token :: rest =>
      if Z.of_nat input_token_index <? max_sentence_length then
        let token_id :=
          match LookupId tk token with
          | Some token_id => token_id
          | None => unknown_token_id
          end in
        input_tokens' ← vector_set input_token_index token_id input_tokens;
        regex_fill tk unknown_token_id max_sentence_length rest
          (S input_token_index) input_tokens'
      else Some input_tokens
  end.

(** The array [RegexPreprocess] builds: [input_tokens]. *)
Definition regex_encode (tk : Tokenizer) (regex_tokenizer : RegexTokenizer)
    (max_sentence_length : Z) (input_text : string) : option (list Z) :=
  let subwords := Tokenize tk input_text in
  let unknown_token_id := default 0 (GetUnknownToken regex_tokenizer) in
  let pad_token_id := default 0 (GetPadToken regex_tokenizer) in
  input_tokens ← std_vector max_sentence_length pad_token_id;
  '(input_tokens, input_token_index) ←
    match GetStartToken regex_tokenizer with
    | Some start_token_id =>
        input_tokens' ← vector_set 0 start_token_id input_tokens;
        Some (input_tokens', 1%nat)
    | None => Some (input_tokens, 0%nat)
    end;
  regex_fill tk unknown_token_id max_sentence_length subwords
    input_token_index input_tokens.

(** [RegexPreprocess].  [tokenizer_.release()] hands the tokenizer to the
    local [regex_tokenizer] and leaves the member null; the local pointer
    deletes the tokenizer when the function returns. *)
Definition RegexPreprocess (p : TextPreprocessor) (inputs : Inputs)
    (input_text : string) : option (Status * TextPreprocessor * Inputs) :=
  index ← GetTensorIndex p;
  input_tensor ← GetInput inputs index;
  let released := tokenizer_ p in
  let p := set_tokenizer_ None p in
  tk ← released;
  regex_tokenizer ← as_RegexTokenizer tk;
  max_sentence_length ← regex_max_sentence_length (dims input_tensor);
  input_tokens ←
    regex_encode tk regex_tokenizer max_sentence_length input_text;
  '(s, inputs') ←
    populate_tensor (PopulateTensor_ints input_tokens) index inputs;
  Some (s, p, inputs').

(* ------------------------------------------------------------------ *)
(** *** Preprocess *)

Definition Preprocess (p : TextPreprocessor) (inputs : Inputs)
    (input_text : string) : option (Status * TextPreprocessor * Inputs) :=
  match tokenzier_type_ p with
  | kNone =>
      index ← GetTensorIndex p;
      '(s, inputs') ←
        populate_tensor (PopulateTensor_string input_text) index inputs;
      Some (s, p, inputs')
  | kRegex => RegexPreprocess p inputs input_text
  | kBert => BertPreprocess p inputs input_text
  end.

(* ================================================================== *)
(** ** Model metadata and the collaborators of initialization *)

(** [tflite::ProcessUnitOptions] of the metadata schema. *)
Inductive ProcessUnitOptions :=
  | ProcessUnitOptions_NONE
  | ProcessUnitOptions_NormalizationOptions
  | ProcessUnitOptions_ScoreCalibrationOptions
  | ProcessUnitOptions_ScoreThresholdingOptions
  | ProcessUnitOptions_BertTokenizerOptions
  | ProcessUnitOptions_SentencePieceTokenizerOptions
  | ProcessUnitOptions_RegexTokenizerOptions.

#[global] Instance ProcessUnitOptions_eq_dec : EqDecision ProcessUnitOptions.
Proof. solve_decision. Defined.

(** [tflite::ProcessUnit]: the type of its options and the options
    themselves, which this file never reads. *)
Record ProcessUnit := mkProcessUnit {
  options_type : ProcessUnitOptions;
  options : string
}.

(** [tflite::TensorMetadata]. *)
Record TensorMetadata := mkTensorMetadata {
  metadata_name : string;
  process_units : list ProcessUnit
}.

(** What initialization calls and this file does not define: the methods
    of the [ModelMetadataExtractor] of the engine, the helper
    [FindIndexByMetadataTensorName], the tokenizer factory and
    [Processor::Create].  A null [const ProcessUnit*] or
    [const TensorMetadata*] is [None]. *)
Record Collaborators := mkCollaborators {
  (* Processor::GetTensorMetadata(): the metadata of one input *)
  GetTensorMetadata : Z -> option TensorMetadata;
  (* ModelMetadataExtractor::GetInputTensorMetadata() *)
  GetInputTensorMetadata : list TensorMetadata;
  (* ModelMetadataExtractor::GetInputProcessUnit(index) *)
  GetInputProcessUnit : Z -> option ProcessUnit;
  (* ModelMetadataExtractor::FindFirstProcessUnit(metadata, type) *)
  FindFirstProcessUnit :
    TensorMetadata -> ProcessUnitOptions -> StatusOr (option ProcessUnit);
  (* FindIndexByMetadataTensorName(tensors_metadata, name); -1: not found *)
  FindIndexByMetadataTensorName : list TensorMetadata -> string -> Z;
  (* CreateTokenizerFromProcessUnit(process_unit, extractor) *)
  CreateTokenizerFromProcessUnit : option ProcessUnit -> StatusOr Tokenizer;
  (* Processor::Create<TextPreprocessor>(num_expected_tensors, engine,
     tensor_indices, requires_metadata) *)
  Processor_Create : nat -> list Z -> bool -> StatusOr TextPreprocessor
}.

(* ------------------------------------------------------------------ *)
(** *** TryFindRegexTokenizerMetadata *)

Definition type_mismatch_error (input_tensor : TfLiteTensor) : Status :=
  CreateStatusWithPayload kInvalidArgument
    ("Type mismatch for input tensor " +:+ name input_tensor
       +:+ ". Requested INT32 for RegexTokenizer, got "
       +:+ TfLiteTypeGetName (type input_tensor) +:+ ".")
    kInvalidInputTensorTypeError.

Definition TryFindRegexTokenizerMetadata (c : Collaborators)
    (p : TextPreprocessor) (inputs : Inputs)
    : option (StatusOr (option ProcessUnit)) :=
  index ← GetTensorIndex p;
  match GetTensorMetadata c index with
  | None => Some (StatusOk None)
  | Some tensor_metadata =>
      match FindFirstProcessUnit c tensor_metadata
              ProcessUnitOptions_RegexTokenizerOptions with
      | StatusErr s => Some (StatusErr s)
      | StatusOk None => Some (StatusOk None)
      | StatusOk (Some tokenizer_metadata) =>
          input_tensor ← GetTensor p inputs;
          if negb (is_int32 (type input_tensor))
          then Some (StatusErr (type_mismatch_error input_tensor))
          else Some (StatusOk (Some tokenizer_metadata))
      end
  end.

(* ------------------------------------------------------------------ *)
(** *** Init *)

(** The message of the two tensor-count errors. *)
Definition tensor_count_error (count : nat) : Status :=
  CreateStatusWithPayload kInvalidArgument
    ("TextPrerocessor accepts either 1 input tesnor (for Regex "
       +:+ "tokenizer or String tensor) or 3 input tensors (for Bert "
       +:+ "tokenizer), but got " +:+ fmt_d (Z.of_nat count) +:+ " tensors.")
    kError.

Definition bert_length_error (ids_len mask_len segment_ids_len : Z) : Status :=
  CreateStatusWithPayload kInternal
    ("The three input tensors in Bert models are "
       +:+ "expected to have same length, but got ids_tensor ("
       +:+ fmt_d ids_len +:+ "), mask_tensor (" +:+ fmt_d mask_len
       +:+ "), segment_ids_tensor (" +:+ fmt_d segment_ids_len +:+ ").")
    kInvalidNumOutputTensorsError.

(** [index == -1 ? fallback : index]. *)
Definition index_or (index fallback : Z) : Z :=
  if index =? -1 then fallback else index.

(** The last statement of [Init]:
    [ASSIGN_OR_RETURN(tokenizer_, CreateTokenizerFromProcessUnit(...))]. *)
Definition Init_tokenizer (c : Collaborators)
    (tokenzier_metadata : option ProcessUnit) (p : TextPreprocessor)
    : Status * TextPreprocessor :=
  match CreateTokenizerFromProcessUnit c tokenzier_metadata with
  | StatusErr s => (s, p)
  | StatusOk tk => (OkStatus, set_tokenizer_ (Some tk) p)
  end.

(** [Init]: the status it returns and the members after it. *)
Definition Init (c : Collaborators) (p : TextPreprocessor) (inputs : Inputs)
    : option (Status * TextPreprocessor) :=
  match tensor_indices_ p with
  | [_] =>
      input_tensor ← GetTensor p inputs;
      if is_string (type input_tensor)
      then Some (OkStatus, set_tokenzier_type_ kNone p)
      else
        found ← TryFindRegexTokenizerMetadata c p inputs;
        match found with
        | StatusErr s => Some (s, p)
        | StatusOk tokenzier_metadata =>
            Some (Init_tokenizer c tokenzier_metadata
                    (set_tokenzier_type_ kRegex p))
        end
  | [index0; index1; index2] =>
      let tokenzier_metadata :=
        GetInputProcessUnit c kTokenizerProcessUnitIndex in
      let p := set_tokenzier_type_ kBert p in
      let tensors_metadata := GetInputTensorMetadata c in
      let ids_tensor_index :=
        FindIndexByMetadataTensorName c tensors_metadata kIdsTensorName in
      let mask_tensor_index :=
        FindIndexByMetadataTensorName c tensors_metadata kMaskTensorName in
      let segment_ids_tensor_index :=
        FindIndexByMetadataTensorName c tensors_metadata
          kSegmentIdsTensorName in
      let p := set_bert_indices_
                 (index_or ids_tensor_index index0)
                 (index_or mask_tensor_index index1)
                 (index_or segment_ids_tensor_index index2) p in
      ids_len ← GetLastDimSize inputs (ids_tensor_index_ p);
      mask_len ← GetLastDimSize inputs (mask_tensor_index_ p);
      segment_ids_len ← GetLastDimSize inputs (segment_ids_tensor_index_ p);
      if negb (ids_len =? mask_len) || negb (ids_len =? segment_ids_len)
      then Some (bert_length_error ids_len mask_len segment_ids_len, p)
      else
        Some (Init_tokenizer c tokenzier_metadata
                (set_bert_max_seq_len_ ids_len p))
  | _ => Some (tensor_count_error (length (tensor_indices_ p)), p)
  end.

(* ------------------------------------------------------------------ *)
(** *** Create *)

(** [Create]: the error, or the initialized preprocessor. *)
Definition Create (c : Collaborators) (inputs : Inputs)
    (input_tensor_indices : list Z) : option (StatusOr TextPreprocessor) :=
  let size := length input_tensor_indices in
  if negb (size =? 1)%nat && negb (size =? 3)%nat
  then Some (StatusErr (tensor_count_error size))
  else
    match Processor_Create c size input_tensor_indices false with
    | StatusErr s => Some (StatusErr s)
    | StatusOk processor =>
        '(s, processor) ← Init c processor inputs;
        if ok s then Some (StatusOk processor) else Some (StatusErr s)
    end.

(* ================================================================== *)
(** ** Vocabulary of the statements *)

(** The id [BertPreprocess] leaves at the position of a token: its
    vocabulary id, or the [0] the array was created with. *)
Definition bert_id (tk : Tokenizer) (token : string) : Z :=
  default 0 (LookupId tk token).

(** The number of subwords kept out of [n] for a sequence length [L]. *)
Definition kept_subwords (L : Z) (n : nat) : nat :=
  Nat.min n (Z.to_nat (L - 2)).

(** The id [RegexPreprocess] writes for a subword. *)
Definition regex_id (tk : Tokenizer) (rt : RegexTokenizer) (token : string)
    : Z :=
  default (default 0 (GetUnknownToken rt)) (LookupId tk token).

(** The array of the Regex encoder as the specification words it: the start
    id when there is one, then the id of each subword in order, cut at
    [len] entries, the rest of the [len] positions holding the pad id. *)
Definition regex_expected (tk : Tokenizer) (rt : RegexTokenizer)
    (len : nat) (subwords : list string) : list Z :=
  let content := option_list (GetStartToken rt)
                   ++ map (regex_id tk rt) subwords in
  take len content
    ++ replicate (len - length content) (default 0 (GetPadToken rt)).

(** The position of the first real token. *)
Definition first_token_index (rt : RegexTokenizer) : nat :=
  length (option_list (GetStartToken rt)).

(* ================================================================== *)
(** ** Sample configurations *)

Module Sample.

Definition regex_vocab : gmap string Z :=
  list_to_map [("<PAD>", 0); ("<START>", 1); ("<UNKNOWN>", 2);
               ("good", 7); ("film", 9)].

(** The special tokens of [regex_vocab]. *)
Definition regex_accessors : RegexTokenizer :=
  {| GetStartToken := regex_vocab !! "<START>";
     GetPadToken := regex_vocab !! "<PAD>";
     GetUnknownToken := regex_vocab !! "<UNKNOWN>" |}.

(** A regex tokenizer over [regex_vocab] that splits at blanks. *)
Definition regex_tokenizer : Tokenizer :=
  {| Tokenize := String.words;
     LookupId := λ token, regex_vocab !! token;
     as_RegexTokenizer := Some regex_accessors |}.

Definition bert_vocab : gmap string Z :=
  list_to_map [("[CLS]", 101); ("[SEP]", 102); ("good", 7); ("film", 9)].

(** A tokenizer of another class, as the Bert variant holds. *)
Definition bert_tokenizer : Tokenizer :=
  {| Tokenize := String.words;
     LookupId := λ token, bert_vocab !! token;
     as_RegexTokenizer := None |}.

Definition int32_tensor (nm : string) (shape : list Z) (size : Z)
    : TfLiteTensor :=
  mkTensor nm kTfLiteInt32 shape size Unwritten.

(** A Regex preprocessor over one [1 x 5] buffer. *)
Definition regex_inputs : Inputs := [int32_tensor "input_text" [1; 5] 20].
Definition regex_preprocessor : TextPreprocessor :=
  mkTextPreprocessor [0] (Some regex_tokenizer) kRegex 0 0 0 0.

(** A Bert preprocessor over three [1 x 4] buffers. *)
Definition bert_inputs : Inputs :=
  [int32_tensor "ids" [1; 4] 16; int32_tensor "mask" [1; 4] 16;
   int32_tensor "segment_ids" [1; 4] 16].
Definition bert_preprocessor : TextPreprocessor :=
  mkTextPreprocessor [0; 1; 2] (Some bert_tokenizer) kBert 0 1 2 4.

(** A Bert preprocessor whose buffers hold two rows of four ids: the
    arrays of length four do not fit them. *)
Definition bert_inputs_two_rows : Inputs :=
  [int32_tensor "ids" [2; 4] 32; int32_tensor "mask" [2; 4] 32;
   int32_tensor "segment_ids" [2; 4] 32].

(** A Passthrough preprocessor over one string buffer. *)
Definition string_inputs : Inputs :=
  [mkTensor "input_text" kTfLiteString [1] 0 Unwritten].
Definition string_preprocessor : TextPreprocessor :=
  mkTextPreprocessor [0] None kNone 0 0 0 0.

(** A freshly constructed preprocessor over the given inputs. *)
Definition fresh (tensor_indices : list Z) : TextPreprocessor :=
  mkTextPreprocessor tensor_indices None kNone 0 0 0 0.

(** Collaborators of a Bert model whose metadata names no tensor: the
    tokenizer options are the first input process unit. *)
Definition bert_collaborators : Collaborators :=
  {| GetTensorMetadata := λ _, None;
     GetInputTensorMetadata := [];
     GetInputProcessUnit := λ index,
       if index =? 0
       then Some (mkProcessUnit ProcessUnitOptions_BertTokenizerOptions
                    "vocab.txt")
       else None;
     FindFirstProcessUnit := λ _ _, StatusOk None;
     FindIndexByMetadataTensorName := λ _ _, -1;
     CreateTokenizerFromProcessUnit := λ process_unit,
       match process_unit with
       | Some _ => StatusOk bert_tokenizer
       | None =>
           StatusErr (CreateStatusWithPayload kInvalidArgument
                        "No metadata or input process unit found." kError)
       end;
     Processor_Create := λ _ tensor_indices _,
       StatusOk (fresh tensor_indices) |}.

(** Three buffers of which the second is shorter. *)
Definition bert_inputs_unequal : Inputs :=
  [int32_tensor "ids" [1; 8] 32; int32_tensor "mask" [1; 6] 24;
   int32_tensor "segment_ids" [1; 8] 32].

(** Collaborators of a model whose first input carries regex-tokenizer
    options. *)
Definition regex_options : ProcessUnit :=
  mkProcessUnit ProcessUnitOptions_RegexTokenizerOptions "vocab.txt".

Definition regex_collaborators : Collaborators :=
  {| GetTensorMetadata := λ index,
       if index =? 0
       then Some (mkTensorMetadata "input_text" [regex_options])
       else None;
     GetInputTensorMetadata := [mkTensorMetadata "input_text" [regex_options]];
     GetInputProcessUnit := λ _, None;
     FindFirstProcessUnit := λ tensor_metadata wanted,
       StatusOk (snd <$> list_find (λ unit, options_type unit = wanted)
                           (process_units tensor_metadata));
     FindIndexByMetadataTensorName := λ _ _, -1;
     CreateTokenizerFromProcessUnit := λ process_unit,
       match process_unit with
       | Some _ => StatusOk regex_tokenizer
       | None =>
           StatusErr (CreateStatusWithPayload kInvalidArgument
                        "No metadata or input process unit found." kError)
       end;
     Processor_Create := λ _ tensor_indices _,
       StatusOk (fresh tensor_indices) |}.

(** A float buffer, which a regex tokenizer cannot fill. *)
Definition float_inputs : Inputs :=
  [mkTensor "input_text" kTfLiteFloat32 [1; 5] 20 Unwritten].

End Sample.

(* ================================================================== *)
(** ** Vocabulary of the statements on buffers *)

(** A buffer without its contents: what no write changes. *)
Definition erase (t : TfLiteTensor) : TfLiteTensor := set_data Unwritten t.

(** A write that reads no contents, changes nothing but contents, and
    fails with a status that is not OK. *)
Definition blind (w : TfLiteTensor -> StatusOr TfLiteTensor) : Prop :=
  (∀ t t', erase t = erase t' -> w t = w t')
  ∧ (∀ t t', w t = StatusOk t' -> erase t' = erase t)
  ∧ (∀ t s, w t = StatusErr s -> ok s = false).

(** [RETURN_IF_ERROR(PopulateTensor(...))] for each write in turn, then
    [return absl::OkStatus()]. *)
Fixpoint populate_all (ws : list (Z * (TfLiteTensor -> StatusOr TfLiteTensor)))
    (inputs : Inputs) : option (Status * Inputs) :=
  match ws with
  | [] => Some (OkStatus, inputs)
  | (index, w) :: rest =>
      return_if_error (populate_tensor w index inputs) (populate_all rest)
  end.

(** The positions [populate_all] wrote before it returned. *)
Fixpoint executed (ws : list (Z * (TfLiteTensor -> StatusOr TfLiteTensor)))
    (inputs : Inputs) : list nat :=
  match ws with
  | [] => []
  | (index, w) :: rest =>
      match populate_tensor w index inputs with
      | Some (s, inputs') =>
          if ok s then Z.to_nat index :: executed rest inputs' else []
      | None => []
      end
  end.

(** [Y] and [X] are the same buffers, with the same contents at every
    position outside [I]. *)
Definition agree_off (I : list nat) (Y X : Inputs) : Prop :=
  ∀ j : nat, erase <$> Y !! j = erase <$> X !! j
             ∧ (j ∉ I -> Y !! j = X !! j).

(** The input at [index] accepts an array of [len] 32-bit integers. *)
Definition accepts_ints (len : nat) (inputs : Inputs) (index : Z) : Prop :=
  ∃ t, GetInput inputs index = Some t
       ∧ type t = kTfLiteInt32 ∧ bytes t = 4 * Z.of_nat len.

(** The claim that the array of the Regex encoder is as long as the last
    dimension of the buffer, for one shape and one text. *)
Definition array_length_is_last_dim (tk : Tokenizer) (rt : RegexTokenizer)
    (shape : list Z) (input_text : string) : Prop :=
  ∀ L input_tokens,
    regex_max_sentence_length shape = Some L ->
    regex_encode tk rt L input_text = Some input_tokens ->
    Some (Z.of_nat (length input_tokens)) = last shape.

(** The claim that two consecutive calls both succeed and leave the same
    buffers, for one preprocessor, one state of the inputs and one text. *)
Definition both_calls_succeed_alike (p : TextPreprocessor) (inputs : Inputs)
    (input_text : string) : Prop :=
  ∃ p1 inputs1 p2,
    Preprocess p inputs input_text = Some (OkStatus, p1, inputs1)
    ∧ Preprocess p1 inputs1 input_text = Some (OkStatus, p2, inputs1).

(** The writes of [BertPreprocess], in order. *)
Definition bert_writes (p : TextPreprocessor)
    (input_ids input_mask segment_ids : list Z)
    : list (Z * (TfLiteTensor -> StatusOr TfLiteTensor)) :=
  [(ids_tensor_index_ p, PopulateTensor_ints input_ids);
   (mask_tensor_index_ p, PopulateTensor_ints input_mask);
   (segment_ids_tensor_index_ p, PopulateTensor_ints segment_ids)].

(** The buffers fit the preprocessor: the state in which [Init] leaves a
    preprocessor whose buffers accept the arrays it builds.
    - Passthrough: the buffer is a string buffer;
    - Regex: the tokenizer is a regex tokenizer, the buffer holds as many
      32-bit integers as its sentence length, which is at least one when
      the tokenizer has a start token;
    - Bert: there is a tokenizer, the sequence length is at least two and
      each of the three buffers holds that many 32-bit integers. *)
Definition fits (p : TextPreprocessor) (inputs : Inputs) : Prop :=
  match tokenzier_type_ p with
  | kNone =>
      ∃ index t, GetTensorIndex p = Some index
                 ∧ GetInput inputs index = Some t
                 ∧ type t = kTfLiteString
  | kRegex =>
      ∃ tk rt index t L,
        tokenizer_ p = Some tk ∧ as_RegexTokenizer tk = Some rt
        ∧ GetTensorIndex p = Some index
        ∧ GetInput inputs index = Some t
        ∧ regex_max_sentence_length (dims t) = Some L
        ∧ L <= INT_MAX
        ∧ (is_Some (GetStartToken rt) -> 1 <= L)
        ∧ type t = kTfLiteInt32 ∧ bytes t = 4 * L
  | kBert =>
      is_Some (tokenizer_ p)
      ∧ 2 <= bert_max_seq_len_ p <= INT_MAX
      ∧ accepts_ints (Z.to_nat (bert_max_seq_len_ p)) inputs
          (ids_tensor_index_ p)
      ∧ accepts_ints (Z.to_nat (bert_max_seq_len_ p)) inputs
          (mask_tensor_index_ p)
      ∧ accepts_ints (Z.to_nat (bert_max_seq_len_ p)) inputs
          (segment_ids_tensor_index_ p)
  end.

(* ================================================================== *)
(** ** Vocabulary of the further statements *)

(** The inputs a call of [Preprocess] is aimed at: the three resolved
    roles for the Bert variant, [tensor_indices_.at(0)] for the others. *)
Definition managed_indices (p : TextPreprocessor) : list Z :=
  match tokenzier_type_ p with
  | kBert =>
      [ids_tensor_index_ p; mask_tensor_index_ p; segment_ids_tensor_index_ p]
  | _ => option_list (GetTensorIndex p)
  end.

Module MoreSamples.

(** Three buffers of four positions of which the mask buffer holds floats. *)
Definition bert_inputs_float_mask : Inputs :=
  [Sample.int32_tensor "ids" [1; 4] 16;
   mkTensor "mask" kTfLiteFloat32 [1; 4] 16 Unwritten;
   Sample.int32_tensor "segment_ids" [1; 4] 16].

(** A Bert preprocessor whose mask and segment roles share one buffer. *)
Definition bert_preprocessor_shared : TextPreprocessor :=
  mkTextPreprocessor [0; 1; 2] (Some Sample.bert_tokenizer) kBert 0 1 1 4.

End MoreSamples.

(* ================================================================== *)
(** * Proofs *)

(* ================================================================== *)
(** ** Machine integers and vectors: basic facts *)

Lemma to_size_t_small z : 0 <= z < SIZE_MODULUS -> to_size_t z = z.
Proof. intros H. unfold to_size_t. by apply Z.mod_small. Qed.

Lemma to_size_t_negative z :
  - SIZE_MODULUS <= z < 0 -> to_size_t z = z + SIZE_MODULUS.
Proof.
  intros H. unfold to_size_t.
  symmetry. apply (Z.mod_unique z SIZE_MODULUS (-1)); lia.
Qed.

Lemma int_sub_Some a b :
  INT_MIN <= a - b <= INT_MAX -> int_sub a b = Some (a - b).
Proof.
  intros [H1 H2]. unfold int_sub. simpl.
  destruct (Z.leb_spec INT_MIN (a - b)); [| lia].
  destruct (Z.leb_spec (a - b) INT_MAX); [done | lia].
Qed.

Lemma std_vector_Some n v :
  0 <= n <= INT_MAX -> std_vector n v = Some (replicate (Z.to_nat n) v).
Proof.
  intros [_ H]. unfold std_vector.
  destruct (Z.leb_spec n INT_MAX); [done | lia].
Qed.

Lemma std_vector_None n v : INT_MAX < n -> std_vector n v = None.
Proof.
  intros H. unfold std_vector.
  destruct (Z.leb_spec n INT_MAX); [lia | done].
Qed.

Lemma vector_set_Some i v (vec : list Z) :
  (i < length vec)%nat -> vector_set i v vec = Some (<[i:=v]> vec).
Proof. intros H. unfold vector_set. by rewrite decide_True. Qed.

Lemma vector_set_None i v (vec : list Z) :
  (length vec <= i)%nat -> vector_set i v vec = None.
Proof. intros H. unfold vector_set. rewrite decide_False; [done | lia]. Qed.

(** Writing the first of [m] trailing copies of [x]. *)
Lemma insert_app_replicate (A : list Z) m (x y : Z) :
  (0 < m)%nat ->
  <[length A := y]> (A ++ replicate m x) = (A ++ [y]) ++ replicate (m - 1) x.
Proof.
  intros Hm. destruct m as [|m]; [lia |].
  rewrite insert_app_r_alt by lia.
  replace (length A - length A)%nat with 0%nat by lia.
  simpl. rewrite Nat.sub_0_r. by rewrite <- app_assoc.
Qed.

(* ================================================================== *)
(** ** The Bert encoder *)

Section Bert.
Variable tk : Tokenizer.

(** The loop, entered with [length A] positions written and at least as
    many free positions as tokens, writes one id and one mask bit per
    token and leaves the other positions alone. *)
Lemma bert_fill_in_bounds tokens : ∀ (A B : list Z) m,
  length A = length B ->
  (length tokens <= m)%nat ->
  bert_fill tk tokens (length A) (A ++ replicate m 0) (B ++ replicate m 0)
  = Some (A ++ map (bert_id tk) tokens ++ replicate (m - length tokens) 0,
          B ++ replicate (length tokens) 1
            ++ replicate (m - length tokens) 0).
Proof.
  induction tokens as [|token rest IH]; intros A B m HAB Hm; simpl.
  - by rewrite Nat.sub_0_r.
  - simpl in Hm.
    rewrite decide_True by (rewrite length_app, length_replicate; lia).
    rewrite vector_set_Some by (rewrite length_app, length_replicate; lia).
    simpl. rewrite HAB, insert_app_replicate by lia.
    assert (Hids : match LookupId tk token with
                   | Some id => <[length B := id]> (A ++ replicate m 0)
                   | None => A ++ replicate m 0
                   end = (A ++ [bert_id tk token]) ++ replicate (m - 1) 0).
    { unfold bert_id. rewrite <- HAB.
      destruct (LookupId tk token) as [id|]; simpl.
      - apply insert_app_replicate; lia.
      - destruct m as [|m]; [lia |]. simpl. rewrite Nat.sub_0_r.
        by rewrite <- app_assoc. }
    rewrite Hids.
    replace (S (length B)) with (length (A ++ [bert_id tk token]))
      by (rewrite length_app; simpl; lia).
    rewrite IH by (rewrite ?length_app; simpl; lia).
    rewrite <- !app_assoc. simpl.
    by replace (m - 1 - length rest)%nat
      with (m - S (length rest))%nat by lia.
Qed.

(** With more tokens than positions left, the loop writes outside
    [input_ids]. *)
Lemma bert_fill_out_of_bounds tokens : ∀ i (ids mask : list Z),
  (i <= length ids)%nat ->
  (length ids < i + length tokens)%nat ->
  bert_fill tk tokens i ids mask = None.
Proof.
  induction tokens as [|token rest IH]; intros i ids mask Hi Hlen;
    simpl in *; [lia |].
  destruct (decide (i < length ids)%nat) as [Hlt|]; [| done].
  destruct (vector_set i 1 mask) as [mask'|]; [| done]. simpl.
  apply IH; destruct (LookupId tk token); rewrite ?length_insert; lia.
Qed.

Lemma query_tokens_take L subwords :
  2 <= L <= INT_MAX ->
  query_tokens (L - 2) subwords
  = take (kept_subwords L (length subwords)) subwords.
Proof.
  intros HL. unfold query_tokens, kept_subwords.
  rewrite to_size_t_small by (unfold SIZE_MODULUS, INT_MAX in *; lia).
  f_equal. lia.
Qed.

Lemma length_bert_tokens k subwords :
  length (bert_tokens k subwords)
  = (length (query_tokens k subwords) + 2)%nat.
Proof. unfold bert_tokens. simpl. rewrite length_app. simpl. lia. Qed.

Lemma length_query_tokens L subwords :
  2 <= L <= INT_MAX ->
  length (query_tokens (L - 2) subwords)
  = kept_subwords L (length subwords).
Proof.
  intros HL. rewrite query_tokens_take by done.
  rewrite length_take. unfold kept_subwords. lia.
Qed.

Lemma length_bert_tokens_le L subwords :
  2 <= L <= INT_MAX ->
  (length (bert_tokens (L - 2) subwords) <= Z.to_nat L)%nat.
Proof.
  intros HL. rewrite length_bert_tokens, length_query_tokens by done.
  unfold kept_subwords. lia.
Qed.

(** The three arrays in closed form. *)
Lemma bert_encode_eq L text :
  2 <= L <= INT_MAX ->
  let tokens := bert_tokens (L - 2) (Tokenize tk (AsciiStrToLower text)) in
  bert_encode tk L text =
    Some (map (bert_id tk) tokens
            ++ replicate (Z.to_nat L - length tokens) 0,
          replicate (length tokens) 1
            ++ replicate (Z.to_nat L - length tokens) 0,
          replicate (Z.to_nat L) 0).
Proof.
  intros HL tokens. unfold bert_encode.
  rewrite int_sub_Some by (unfold INT_MIN, INT_MAX in *; lia). simpl.
  rewrite to_size_t_small by (unfold SIZE_MODULUS, INT_MAX in *; lia).
  rewrite std_vector_Some by lia. simpl.
  fold tokens.
  pose proof (bert_fill_in_bounds tokens [] [] (Z.to_nat L) eq_refl
                (length_bert_tokens_le L _ HL)) as Hfill.
  simpl in Hfill. by rewrite Hfill.
Qed.

(** Without the two reserved slots the subtraction goes below zero and
    its conversion to [size_t] is above every subword count: nothing is
    cut. *)
Lemma query_tokens_underflow L subwords :
  INT_MIN + 2 <= L < 2 ->
  Z.of_nat (length subwords) <= 2 ^ 63 ->
  to_size_t (L - 2) = SIZE_MODULUS + (L - 2)
  ∧ query_tokens (L - 2) subwords = subwords.
Proof.
  intros HL Hn.
  assert (Hcast : to_size_t (L - 2) = SIZE_MODULUS + (L - 2)).
  { rewrite to_size_t_negative; unfold SIZE_MODULUS, INT_MIN in *; lia. }
  split; [done |]. unfold query_tokens. rewrite Hcast.
  apply take_ge. unfold SIZE_MODULUS, INT_MIN in *. lia.
Qed.

Lemma bert_encode_short L text :
  INT_MIN + 2 <= L < 2 -> bert_encode tk L text = None.
Proof.
  intros HL. unfold bert_encode.
  rewrite int_sub_Some by (unfold INT_MIN, INT_MAX in *; lia).
  cbn -[bert_fill bert_tokens].
  destruct (Z.neg_nonneg_cases L) as [Hneg|Hpos].
  - rewrite std_vector_None; [done |].
    rewrite to_size_t_negative; unfold SIZE_MODULUS, INT_MIN, INT_MAX in *;
      lia.
  - rewrite to_size_t_small by (unfold SIZE_MODULUS; lia).
    rewrite std_vector_Some by (unfold INT_MAX; lia).
    cbn -[bert_fill bert_tokens].
    rewrite bert_fill_out_of_bounds; [done | simpl; lia |].
    rewrite length_replicate, length_bert_tokens. lia.
Qed.

End Bert.

(* ================================================================== *)
(** ** The Regex encoder *)

Section Regex.
Variable tk : Tokenizer.
Variable rt : RegexTokenizer.

Local Abbreviation unknown := (default 0 (GetUnknownToken rt)).
Local Abbreviation pad := (default 0 (GetPadToken rt)).

(** The loop, entered with [length A] positions written and [m] free
    positions, writes the ids of the first [m] subwords. *)
Lemma regex_fill_eq subwords : ∀ (A : list Z) (m : nat) (L : Z),
  L = Z.of_nat (length A + m) ->
  regex_fill tk unknown L subwords (length A) (A ++ replicate m pad)
  = Some (A ++ map (regex_id tk rt) (take m subwords)
            ++ replicate (m - length subwords) pad).
Proof.
  induction subwords as [|token rest IH]; intros A m L HL; simpl.
  - by rewrite take_nil, Nat.sub_0_r.
  - destruct (Z.ltb_spec (Z.of_nat (length A)) L) as [Hlt|Hge].
    + destruct m as [|m]; [lia |].
      rewrite vector_set_Some
        by (rewrite length_app, length_replicate; lia).
      cbn -[regex_fill replicate].
      rewrite insert_app_replicate by lia.
      set (token_id := match LookupId tk token with
                       | Some token_id => token_id
                       | None => unknown
                       end).
      replace (S (length A)) with (length (A ++ [token_id]))
        by (rewrite length_app; simpl; lia).
      replace (S m - 1)%nat with m by lia.
      rewrite (IH _ m L) by (rewrite length_app; simpl; lia).
      by rewrite <- app_assoc.
    + assert (m = 0)%nat as -> by lia. simpl. by rewrite app_nil_r.
Qed.

(** The array in closed form: it is the array of the specification. *)
Lemma regex_encode_eq L text :
  0 <= L <= INT_MAX ->
  (is_Some (GetStartToken rt) -> 1 <= L) ->
  regex_encode tk rt L text
  = Some (regex_expected tk rt (Z.to_nat L) (Tokenize tk text)).
Proof.
  intros HL Hstart. unfold regex_encode, regex_expected.
  rewrite std_vector_Some by done. cbn -[regex_fill replicate].
  destruct (GetStartToken rt) as [start_token_id|] eqn:Hst.
  - assert (1 <= L) as HL1 by (apply Hstart; eauto).
    rewrite vector_set_Some by (rewrite length_replicate; lia).
    cbn -[regex_fill replicate].
    pose proof (insert_app_replicate [] (Z.to_nat L) pad start_token_id)
      as Hins.
    simpl in Hins. rewrite Hins by lia.
    pose proof (regex_fill_eq (Tokenize tk text) [start_token_id]
                  (Z.to_nat L - 1) L) as Hfill.
    simpl in Hfill. rewrite Hfill by lia.
    f_equal. simpl.
    destruct (Z.to_nat L) as [|n] eqn:HnL; [lia |]. simpl.
    rewrite Nat.sub_0_r, firstn_map, length_map. done.
  - cbn -[regex_fill replicate].
    pose proof (regex_fill_eq (Tokenize tk text) [] (Z.to_nat L) L) as Hfill.
    simpl in Hfill. rewrite Hfill by lia.
    f_equal. simpl. by rewrite firstn_map, length_map.
Qed.

(** The start token is written before any test of the length. *)
Lemma regex_encode_empty_start text start_token_id :
  GetStartToken rt = Some start_token_id ->
  regex_encode tk rt 0 text = None.
Proof. intros Hst. unfold regex_encode. simpl. by rewrite Hst. Qed.

Lemma length_regex_expected len subwords :
  length (regex_expected tk rt len subwords) = len.
Proof.
  unfold regex_expected. rewrite length_app, length_take, length_replicate.
  lia.
Qed.

(** Behind the start token and the subwords, the pad id. *)
Lemma regex_expected_pad len subwords j :
  (first_token_index rt + length subwords <= j < len)%nat ->
  regex_expected tk rt len subwords !! j = Some pad.
Proof.
  intros Hj. unfold regex_expected, first_token_index in *.
  set (content := option_list (GetStartToken rt)
                    ++ map (regex_id tk rt) subwords).
  assert (length content
          = (length (option_list (GetStartToken rt)) + length subwords)%nat)
    as Hc by (unfold content; rewrite length_app, length_map; done).
  rewrite lookup_app_r by (rewrite length_take; lia).
  apply lookup_replicate_2. rewrite length_take. lia.
Qed.

(** At the position of a subword, its id. *)
Lemma regex_expected_token len subwords i token :
  subwords !! i = Some token ->
  (first_token_index rt + i < len)%nat ->
  regex_expected tk rt len subwords !! (first_token_index rt + i)%nat
  = Some (regex_id tk rt token).
Proof.
  intros Hi Hlen. unfold regex_expected, first_token_index in *.
  apply lookup_lt_Some in Hi as Hlt.
  rewrite lookup_app_l
    by (rewrite length_take, length_app, length_map; lia).
  rewrite lookup_take_lt by lia.
  rewrite lookup_app_r by lia.
  replace (length (option_list (GetStartToken rt)) + i
           - length (option_list (GetStartToken rt)))%nat with i by lia.
  change (map (regex_id tk rt) subwords) with (regex_id tk rt <$> subwords).
  by rewrite list_lookup_fmap, Hi.
Qed.

End Regex.

(* ================================================================== *)
(** ** Writes into the buffers *)

Section Buffers.
Implicit Types (X Y : Inputs).
Implicit Types (w : TfLiteTensor -> StatusOr TfLiteTensor).

Lemma erase_set_data d t : erase (set_data d t) = erase t.
Proof. done. Qed.

Lemma set_data_erase d t t' :
  erase t = erase t' -> set_data d t = set_data d t'.
Proof.
  unfold erase, set_data. intros H. injection H as Hn Ht Hd Hb.
  by rewrite Hn, Ht, Hd, Hb.
Qed.

Lemma blind_ints v : blind (PopulateTensor_ints v).
Proof.
  split; [| split].
  - intros t t' H. unfold PopulateTensor_ints.
    rewrite (set_data_erase (IntData v) t t' H).
    unfold erase, set_data in H. injection H as Hn Ht Hd Hb.
    by rewrite Hn, Ht, Hb.
  - intros t t'. unfold PopulateTensor_ints.
    repeat case_match; intros [= <-]; done.
  - intros t s. unfold PopulateTensor_ints.
    repeat case_match; intros [= <-]; done.
Qed.

Lemma blind_string s : blind (PopulateTensor_string s).
Proof.
  split; [| split].
  - intros t t' H. unfold PopulateTensor_string.
    rewrite (set_data_erase (StringData s) t t' H).
    unfold erase, set_data in H. injection H as Hn Ht Hd Hb.
    by rewrite Hn, Ht.
  - intros t t'. unfold PopulateTensor_string.
    repeat case_match; intros [= <-]; done.
  - intros t s'. unfold PopulateTensor_string.
    repeat case_match; intros [= <-]; done.
Qed.

(** The two outcomes of a returned write. *)
Lemma populate_cases w index X s X' :
  populate_tensor w index X = Some (s, X') ->
  0 <= index ∧ ∃ t, X !! Z.to_nat index = Some t ∧
    ((∃ t', w t = StatusOk t' ∧ s = OkStatus
            ∧ X' = <[Z.to_nat index := t']> X)
     ∨ (w t = StatusErr s ∧ X' = X)).
Proof.
  unfold populate_tensor, GetInput, set_input. intros H.
  destruct (Z.leb_spec 0 index) as [Hpos|]; [| done].
  split; [done |].
  destruct (X !! Z.to_nat index) as [t|]; [| done]. simpl in H.
  exists t. split; [done |].
  destruct (w t) as [t'|e]; injection H as <- <-; eauto.
Qed.

Lemma agree_off_nil Y X : agree_off [] Y X -> Y = X.
Proof.
  intros H. apply list_eq. intros j. apply H. apply not_elem_of_nil.
Qed.

Lemma agree_off_refl I X : agree_off I X X.
Proof. by intros j. Qed.

(** A run of writes from buffers that differ from [X] in contents the run
    overwrites returns what the run from [X] returns. *)
Lemma populate_all_agree ws : Forall (λ iw, blind iw.2) ws ->
  ∀ X Y s X',
  populate_all ws X = Some (s, X') ->
  agree_off (executed ws X) Y X ->
  populate_all ws Y = Some (s, X').
Proof.
  induction 1 as [|[index w] rest (Hread & Hkeep & Hfail) _ IH];
    intros X Y s X' Hrun Hagree; simpl in *.
  - apply agree_off_nil in Hagree. by subst.
  - unfold return_if_error in *.
    destruct (populate_tensor w index X) as [[s1 X1]|] eqn:Hpop; [| done].
    simpl in Hrun.
    destruct (populate_cases _ _ _ _ _ Hpop)
      as (Hpos & t & Ht & [(t' & Hw & -> & ->) | [Hw ->]]).
    + simpl in Hrun, Hagree.
      destruct (Hagree (Z.to_nat index)) as [Hsame _].
      rewrite Ht in Hsame.
      destruct (Y !! Z.to_nat index) as [u|] eqn:Hu; [| done].
      simpl in Hsame. apply (inj Some) in Hsame.
      unfold populate_tensor at 1, GetInput.
      destruct (Z.leb_spec 0 index); [| lia].
      rewrite Hu. simpl. rewrite (Hread u t Hsame), Hw. simpl.
      apply (IH _ _ _ _ Hrun).
      intros j. unfold set_input.
      destruct (decide (j = Z.to_nat index)) as [->|Hne].
      * rewrite !list_lookup_insert_eq
          by (eapply lookup_lt_Some; eauto). done.
      * rewrite !list_lookup_insert_ne by done.
        destruct (Hagree j) as [Hj1 Hj2]. split; [done |].
        intros Hnot. apply Hj2. rewrite elem_of_cons. tauto.
    + rewrite (Hfail _ _ Hw) in Hrun, Hagree.
      apply agree_off_nil in Hagree. subst Y.
      rewrite Hpop. simpl. by rewrite (Hfail _ _ Hw).
Qed.

(** A run of writes changes contents only, at the positions it wrote. *)
Lemma populate_all_written ws : Forall (λ iw, blind iw.2) ws ->
  ∀ X s X',
  populate_all ws X = Some (s, X') -> agree_off (executed ws X) X' X.
Proof.
  induction 1 as [|[index w] rest (Hread & Hkeep & Hfail) _ IH];
    intros X s X' Hrun; simpl in *.
  - injection Hrun as _ <-. apply agree_off_refl.
  - unfold return_if_error in *.
    destruct (populate_tensor w index X) as [[s1 X1]|] eqn:Hpop; [| done].
    simpl in Hrun.
    destruct (populate_cases _ _ _ _ _ Hpop)
      as (Hpos & t & Ht & [(t' & Hw & -> & ->) | [Hw ->]]).
    + simpl in *. specialize (IH _ _ _ Hrun).
      intros j. destruct (IH j) as [IH1 IH2].
      destruct (decide (j = Z.to_nat index)) as [->|Hne].
      * split.
        -- rewrite IH1, list_lookup_insert_eq
             by (eapply lookup_lt_Some; eauto).
           rewrite Ht. simpl. f_equal. eauto.
        -- intros Hnot. exfalso. apply Hnot. apply elem_of_cons. tauto.
      * rewrite list_lookup_insert_ne in IH1, IH2 by done.
        split; [done |]. intros Hnot. apply IH2.
        intros Hin. apply Hnot. apply elem_of_cons. tauto.
    + rewrite (Hfail _ _ Hw) in Hrun |- *. injection Hrun as _ <-.
      apply agree_off_refl.
Qed.

(** Running the same writes again returns the same status and leaves the
    buffers as they are. *)
Lemma populate_all_again ws X s X' :
  Forall (λ iw, blind iw.2) ws ->
  populate_all ws X = Some (s, X') ->
  populate_all ws X' = Some (s, X').
Proof.
  intros Hws Hrun.
  apply (populate_all_agree ws Hws X X' s X' Hrun).
  by apply (populate_all_written ws Hws X s).
Qed.

(** No write changes which inputs there are. *)
Lemma populate_all_GetInput ws X s X' index :
  Forall (λ iw, blind iw.2) ws ->
  populate_all ws X = Some (s, X') ->
  erase <$> GetInput X' index = erase <$> GetInput X index.
Proof.
  intros Hws Hrun. unfold GetInput.
  destruct (0 <=? index); [| done].
  apply (populate_all_written ws Hws X s X' Hrun).
Qed.
End Buffers.

(* ================================================================== *)
(** ** Calls of the encoders on the buffers *)

Section Calls.
Implicit Types (X Y : Inputs) (p : TextPreprocessor).
Implicit Types (w : TfLiteTensor -> StatusOr TfLiteTensor).

Lemma populate_all_single w index X :
  blind w ->
  populate_all [(index, w)] X = populate_tensor w index X.
Proof.
  intros (_ & _ & Hfail). simpl. unfold return_if_error.
  destruct (populate_tensor w index X) as [[s X1]|] eqn:Hpop; [| done].
  simpl.
  destruct (populate_cases _ _ _ _ _ Hpop)
    as (_ & t & _ & [(t' & _ & -> & ->) | [Hw ->]]); [done |].
  by rewrite (Hfail _ _ Hw).
Qed.

Lemma blind_bert_writes p ids mask seg :
  Forall (λ iw, blind iw.2) (bert_writes p ids mask seg).
Proof. repeat constructor; apply blind_ints. Qed.

Lemma BertPreprocess_unfold p X text :
  BertPreprocess p X text =
    (_ ← GetInput X (ids_tensor_index_ p);
     _ ← GetInput X (mask_tensor_index_ p);
     _ ← GetInput X (segment_ids_tensor_index_ p);
     tk ← tokenizer_ p;
     '(ids, mask, seg) ← bert_encode tk (bert_max_seq_len_ p) text;
     '(s, X') ← populate_all (bert_writes p ids mask seg) X;
     Some (s, p, X')).
Proof. reflexivity. Qed.

Lemma GetInput_defined X X' index :
  erase <$> GetInput X' index = erase <$> GetInput X index ->
  is_Some (GetInput X index) -> is_Some (GetInput X' index).
Proof.
  intros He [t Ht]. rewrite Ht in He.
  destruct (GetInput X' index); [eauto | done].
Qed.

Lemma accepts_ints_erase n X X' index :
  erase <$> GetInput X' index = erase <$> GetInput X index ->
  accepts_ints n X index -> accepts_ints n X' index.
Proof.
  intros He (t & Ht & Hty & Hb). rewrite Ht in He.
  destruct (GetInput X' index) as [t'|] eqn:Ht'; [| done].
  simpl in He. apply (inj Some) in He.
  unfold erase, set_data in He. injection He as _ Hty' _ Hb'.
  exists t'. rewrite Hty', Hb'. auto.
Qed.

(** A buffer that accepts the array takes it. *)
Lemma populate_ints_accepted v X index :
  accepts_ints (length v) X index ->
  ∃ X', populate_tensor (PopulateTensor_ints v) index X = Some (OkStatus, X')
        ∧ ∀ j, erase <$> GetInput X' j = erase <$> GetInput X j.
Proof.
  intros (t & Ht & Hty & Hb).
  assert (PopulateTensor_ints v t = StatusOk (set_data (IntData v) t)) as Hw.
  { unfold PopulateTensor_ints. rewrite Hty, Hb. simpl.
    by rewrite Z.eqb_refl. }
  exists (set_input index (set_data (IntData v) t) X). split.
  - unfold populate_tensor. rewrite Ht. simpl. by rewrite Hw.
  - intros j. apply (populate_all_GetInput [(index, PopulateTensor_ints v)]
                       X OkStatus).
    + repeat constructor; apply blind_ints.
    + rewrite populate_all_single by apply blind_ints.
      unfold populate_tensor. rewrite Ht. simpl. by rewrite Hw.
Qed.


Lemma bert_encode_lengths tk L text :
  2 <= L <= INT_MAX ->
  ∃ ids mask seg,
    bert_encode tk L text = Some (ids, mask, seg)
    ∧ length ids = Z.to_nat L ∧ length mask = Z.to_nat L
    ∧ length seg = Z.to_nat L.
Proof.
  intros HL. rewrite bert_encode_eq by done.
  pose proof (length_bert_tokens_le L
                (Tokenize tk (AsciiStrToLower text)) HL) as Hle.
  eexists _, _, _. split; [done |].
  rewrite !length_app, length_map, !length_replicate. lia.
Qed.

(** Buffers that fit take the three arrays of the Bert encoder. *)
Lemma BertPreprocess_fits p X text :
  tokenzier_type_ p = kBert -> fits p X ->
  ∃ X', BertPreprocess p X text = Some (OkStatus, p, X').
Proof.
  unfold fits. intros -> ([tk Htk] & HL & Hids & Hmask & Hseg).
  rewrite BertPreprocess_unfold.
  destruct Hids as (t1 & Ht1 & Hids), Hmask as (t2 & Ht2 & Hmask),
    Hseg as (t3 & Ht3 & Hseg).
  rewrite Ht1, Ht2, Ht3, Htk. cbn [mbind option_bind].
  destruct (bert_encode_lengths tk _ text HL)
    as (ids & mask & seg & -> & Hl1 & Hl2 & Hl3).
  cbn [mbind option_bind]. rewrite <- Hl1 in Hids.
  rewrite <- Hl2 in Hmask. rewrite <- Hl3 in Hseg.
  destruct (populate_ints_accepted ids X (ids_tensor_index_ p))
    as (X1 & H1 & E1); [by exists t1 |].
  destruct (populate_ints_accepted mask X1 (mask_tensor_index_ p))
    as (X2 & H2 & E2).
  { apply (accepts_ints_erase _ X); [apply E1 | by exists t2]. }
  destruct (populate_ints_accepted seg X2 (segment_ids_tensor_index_ p))
    as (X3 & H3 & E3).
  { apply (accepts_ints_erase _ X1); [apply E2 |].
    apply (accepts_ints_erase _ X); [apply E1 | by exists t3]. }
  exists X3. unfold bert_writes, populate_all, return_if_error.
  rewrite H1. cbn [mbind option_bind ok code OkStatus].
  rewrite H2. cbn [mbind option_bind ok code OkStatus].
  rewrite H3. done.
Qed.

Lemma to_size_t_range z : 0 <= to_size_t z < SIZE_MODULUS.
Proof. unfold to_size_t. apply Z.mod_pos_bound. done. Qed.

Lemma regex_max_sentence_length_nonneg shape L :
  regex_max_sentence_length shape = Some L -> 0 <= L.
Proof.
  unfold regex_max_sentence_length.
  destruct (decide _), (shape !! _); intros [= <-];
    apply to_size_t_range.
Qed.

(** Buffers that fit take the array of the Regex encoder; the call
    leaves the member [tokenizer_] null. *)
Lemma RegexPreprocess_fits p X text :
  tokenzier_type_ p = kRegex -> fits p X ->
  ∃ X', RegexPreprocess p X text
        = Some (OkStatus, set_tokenizer_ None p, X').
Proof.
  unfold fits. intros ->
    (tk & rt & index & t & L & Htk & Hrt & Hidx & Ht & HL & HLmax
       & Hstart & Hty & Hb).
  pose proof (regex_max_sentence_length_nonneg _ _ HL) as HL0.
  unfold RegexPreprocess.
  rewrite Hidx. cbn [mbind option_bind]. rewrite Ht, Htk.
  cbn [mbind option_bind]. rewrite Hrt. cbn [mbind option_bind].
  rewrite HL. cbn [mbind option_bind].
  rewrite regex_encode_eq by (done || lia). cbn [mbind option_bind].
  destruct (populate_ints_accepted
              (regex_expected tk rt (Z.to_nat L) (Tokenize tk text))
              X index) as (X1 & H1 & _).
  { exists t. rewrite length_regex_expected. split_and!; [done.. | lia]. }
  exists X1. by rewrite H1.
Qed.

(** A string buffer takes the text. *)
Lemma Passthrough_fits p X text :
  tokenzier_type_ p = kNone -> fits p X ->
  ∃ X', Preprocess p X text = Some (OkStatus, p, X').
Proof.
  unfold fits, Preprocess. intros -> (index & t & -> & Ht & Hty).
  cbn [mbind option_bind]. unfold populate_tensor.
  rewrite Ht. cbn [mbind option_bind].
  unfold PopulateTensor_string. rewrite Hty. simpl. eauto.
Qed.

(** A returned call of the Bert or the Passthrough variant, made again
    on the buffers it left, returns the same and leaves them alone. *)
Lemma Preprocess_again p X text s p1 X1 :
  tokenzier_type_ p ≠ kRegex ->
  Preprocess p X text = Some (s, p1, X1) ->
  p1 = p ∧ Preprocess p X1 text = Some (s, p, X1).
Proof.
  intros Hty. unfold Preprocess.
  destruct (tokenzier_type_ p); [| done |].
  - destruct (GetTensorIndex p) as [index|]; [| done].
    cbn [mbind option_bind].
    destruct (populate_tensor _ index X) as [[s' X']|] eqn:Hpop; [| done].
    cbn [mbind option_bind]. intros [= -> <- ->]. split; [done |].
    rewrite <- populate_all_single in Hpop |- * by apply blind_string.
    assert (Forall (λ iw, blind iw.2) [(index, PopulateTensor_string text)])
      as Hws by (repeat constructor; apply blind_string).
    by rewrite (populate_all_again _ _ _ _ Hws Hpop).
  - rewrite !BertPreprocess_unfold.
    destruct (GetInput X (ids_tensor_index_ p)) eqn:Ht1; [| done].
    destruct (GetInput X (mask_tensor_index_ p)) eqn:Ht2; [| done].
    destruct (GetInput X (segment_ids_tensor_index_ p)) eqn:Ht3; [| done].
    destruct (tokenizer_ p) as [tk|]; [| done].
    cbn [mbind option_bind].
    destruct (bert_encode tk _ text) as [[[ids mask] seg]|]; [| done].
    cbn [mbind option_bind].
    destruct (populate_all _ X) as [[s' X']|] eqn:Hrun; [| done].
    cbn [mbind option_bind]. intros [= -> <- ->]. split; [done |].
    pose proof (blind_bert_writes p ids mask seg) as Hws.
    pose proof (populate_all_GetInput _ _ _ _ (ids_tensor_index_ p)
                  Hws Hrun) as E1.
    pose proof (populate_all_GetInput _ _ _ _ (mask_tensor_index_ p)
                  Hws Hrun) as E2.
    pose proof (populate_all_GetInput _ _ _ _ (segment_ids_tensor_index_ p)
                  Hws Hrun) as E3.
    destruct (GetInput_defined _ _ _ E1) as [? ->]; [by rewrite Ht1 |].
    destruct (GetInput_defined _ _ _ E2) as [? ->]; [by rewrite Ht2 |].
    destruct (GetInput_defined _ _ _ E3) as [? ->]; [by rewrite Ht3 |].
    cbn [mbind option_bind].
    by rewrite (populate_all_again _ _ _ _ Hws Hrun).
Qed.

(** A returned call of the Regex variant leaves the member [tokenizer_]
    null, and a call on a null [tokenizer_] has no defined result. *)
Lemma RegexPreprocess_releases p X text s p1 X1 :
  RegexPreprocess p X text = Some (s, p1, X1) ->
  p1 = set_tokenizer_ None p.
Proof.
  unfold RegexPreprocess.
  destruct (GetTensorIndex p); [| done]. cbn [mbind option_bind].
  destruct (GetInput X _); [| done]. cbn [mbind option_bind].
  destruct (tokenizer_ p) as [tk|]; [| done]. cbn [mbind option_bind].
  destruct (as_RegexTokenizer tk); [| done]. cbn [mbind option_bind].
  destruct (regex_max_sentence_length _); [| done].
  cbn [mbind option_bind].
  destruct (regex_encode _ _ _ _); [| done]. cbn [mbind option_bind].
  destruct (populate_tensor _ _ _) as [[? ?]|]; [| done].
  cbn [mbind option_bind]. by intros [= _ <- _].
Qed.

Lemma RegexPreprocess_null p X text :
  tokenizer_ p = None -> RegexPreprocess p X text = None.
Proof.
  intros Hnull. unfold RegexPreprocess. rewrite Hnull.
  destruct (GetTensorIndex p); [| done]. cbn [mbind option_bind].
  by destruct (GetInput X _).
Qed.
(** The search fails with a status that is not OK, provided
    [FindFirstProcessUnit] does. *)
Lemma TryFindRegexTokenizerMetadata_error (c : Collaborators) p X e :
  (∀ tensor_metadata options_type e,
     FindFirstProcessUnit c tensor_metadata options_type = StatusErr e ->
     ok e = false) ->
  TryFindRegexTokenizerMetadata c p X = Some (StatusErr e) ->
  ok e = false.
Proof.
  intros Hfind. unfold TryFindRegexTokenizerMetadata.
  destruct (GetTensorIndex p) as [index|]; [| done]. cbn [mbind option_bind].
  destruct (GetTensorMetadata c index) as [md|]; [| done].
  destruct (FindFirstProcessUnit c md _) as [[pu|]|e'] eqn:Hf.
  - destruct (GetTensor p X) as [t|]; [| done]. cbn [mbind option_bind].
    destruct (negb (is_int32 (type t))); [| done]. by intros [= <-].
  - done.
  - intros [= <-]. eauto.
Qed.

(** After an [Init] that returns OK the variant is Passthrough or the
    member [tokenizer_] holds the tokenizer the factory made, provided the
    collaborators report their failures with a status that is not OK. *)
Lemma Init_holds_tokenizer (c : Collaborators) p X s p' :
  (∀ process_unit e,
     CreateTokenizerFromProcessUnit c process_unit = StatusErr e ->
     ok e = false) ->
  (∀ tensor_metadata options_type e,
     FindFirstProcessUnit c tensor_metadata options_type = StatusErr e ->
     ok e = false) ->
  Init c p X = Some (s, p') ->
  ok s = true ->
  tokenzier_type_ p' = kNone ∨ is_Some (tokenizer_ p').
Proof.
  intros Hfactory Hfind HInit Hok.
  assert (∀ md q, Init_tokenizer c md q = (s, p') -> is_Some (tokenizer_ p'))
    as Hmade.
  { intros md q. unfold Init_tokenizer.
    destruct (CreateTokenizerFromProcessUnit c md) as [tk|e] eqn:Hmk;
      intros [= <- <-]; [by eexists |].
    rewrite (Hfactory _ _ Hmk) in Hok. done. }
  assert (∀ n q, Some (tensor_count_error n, q) = Some (s, p') -> False)
    as Hcount by (intros n q [= <- _]; done).
  unfold Init in HInit.
  destruct (tensor_indices_ p) as [|i0 [|i1 [|i2 [|i3 rest]]]] eqn:Hidx;
    try (by destruct (Hcount _ _ HInit)).
  - destruct (GetTensor p X) as [t|]; [| done]. cbn [mbind option_bind] in HInit.
    destruct (is_string (type t)).
    { injection HInit as _ <-. by left. }
    destruct (TryFindRegexTokenizerMetadata c p X) as [[md|e]|] eqn:Htry;
      [| | done]; cbn [mbind option_bind] in HInit.
    + injection HInit as HInit. right. by eapply Hmade.
    + injection HInit as He _. rewrite <- He in Hok.
      by rewrite (TryFindRegexTokenizerMetadata_error c p X e Hfind Htry)
        in Hok.
  - simpl in HInit.
    repeat (destruct (GetLastDimSize X _); simpl in HInit); try done.
    match type of HInit with
    | context [if ?b then _ else _] => destruct b
    end.
    + injection HInit as <- _. done.
    + injection HInit as HInit. right. by eapply Hmade.
Qed.

End Calls.


(* ================================================================== *)
(** ** The encoders on the sample configurations *)

(** Passthrough: the string buffer holds the text. *)
Example Passthrough_hello :
  Preprocess Sample.string_preprocessor Sample.string_inputs "hello"
  = Some (OkStatus, Sample.string_preprocessor,
          [mkTensor "input_text" kTfLiteString [1] 0 (StringData "hello")]).
Proof. reflexivity. Qed.

(** Bert, eight positions, seven subwords: six are kept. *)
Example bert_tokens_seven_subwords :
  bert_tokens (8 - 2) ["a"; "b"; "c"; "d"; "e"; "f"; "g"]
  = ["[CLS]"; "a"; "b"; "c"; "d"; "e"; "f"; "[SEP]"].
Proof. reflexivity. Qed.

Example bert_encode_seven_subwords :
  bert_encode Sample.bert_tokenizer 8 "A b c d e f g"
  = Some ([101; 0; 0; 0; 0; 0; 0; 102],
          [1; 1; 1; 1; 1; 1; 1; 1],
          [0; 0; 0; 0; 0; 0; 0; 0]).
Proof. reflexivity. Qed.

(** Bert, two positions: the two markers and no subword. *)
Example bert_encode_two_positions :
  bert_tokens (2 - 2) ["good"; "film"] = ["[CLS]"; "[SEP]"]
  ∧ bert_encode Sample.bert_tokenizer 2 "good film"
    = Some ([101; 102], [1; 1], [0; 0]).
Proof. split; reflexivity. Qed.

(** Regex, five positions, the second subword unknown. *)
Example regex_encode_with_start :
  regex_encode Sample.regex_tokenizer Sample.regex_accessors 5
    "good bad film" = Some [1; 7; 2; 9; 0].
Proof. reflexivity. Qed.

(** The same without a start token. *)
Example regex_encode_without_start :
  regex_encode Sample.regex_tokenizer
    (mkRegexTokenizer None (Some 0) (Some 2)) 5 "good bad film"
  = Some [7; 2; 9; 0; 0].
Proof. reflexivity. Qed.

(** Regex: the case of the text is kept, "Good" is not in the vocabulary. *)
Example regex_encode_case :
  regex_encode Sample.regex_tokenizer Sample.regex_accessors 5 "Good film"
  = Some [1; 2; 9; 0; 0].
Proof. reflexivity. Qed.

(** The first call of the sample Regex preprocessor fills the buffer and
    leaves [tokenizer_] null. *)
Example RegexPreprocess_first_call :
  Preprocess Sample.regex_preprocessor Sample.regex_inputs "good bad film"
  = Some (OkStatus, set_tokenizer_ None Sample.regex_preprocessor,
          [mkTensor "input_text" kTfLiteInt32 [1; 5] 20
             (IntData [1; 7; 2; 9; 0])]).
Proof. reflexivity. Qed.

(** Construction with two buffers fails before [Init]. *)
Example Create_two_buffers :
  Create Sample.bert_collaborators Sample.bert_inputs [0; 1]
  = Some (StatusErr (tensor_count_error 2)).
Proof. reflexivity. Qed.

(** Construction of the sample Regex preprocessor. *)
Example Create_regex :
  Create Sample.regex_collaborators Sample.regex_inputs [0]
  = Some (StatusOk Sample.regex_preprocessor).
Proof. reflexivity. Qed.

(** Construction of the sample Bert preprocessor. *)
Example Create_bert :
  Create Sample.bert_collaborators Sample.bert_inputs [0; 1; 2]
  = Some (StatusOk Sample.bert_preprocessor).
Proof. reflexivity. Qed.

(* ================================================================== *)
(** * The specified properties *)

(* ------------------------------------------------------------------ *)
(** ** The Bert encoder *)

(** C3.  For a text whose lower-cased form tokenizes to [n] subwords and a
    sequence length [L] of at least two, the Bert encoder builds the token
    sequence [CLS], the first [min n (L - 2)] subwords, [SEP]; its length
    [min n (L - 2) + 2] is at most [L] and the subwords beyond are dropped
    without an error; the mask holds [1] at every position below that
    length and [0] from there up to [L]; the segment ids are [L] zeros. *)
Theorem bert_encode_layout (tk : Tokenizer) (L : Z) (text : string) :
  2 <= L <= INT_MAX ->
  let subwords := Tokenize tk (AsciiStrToLower text) in
  let used_length := (Nat.min (length subwords) (Z.to_nat (L - 2)) + 2)%nat in
  bert_tokens (L - 2) subwords
  = kClassificationToken
      :: take (Nat.min (length subwords) (Z.to_nat (L - 2))) subwords
      ++ [kSeparator]
  ∧ length (bert_tokens (L - 2) subwords) = used_length
  ∧ (used_length <= Z.to_nat L)%nat
  ∧ ∃ ids mask segment_ids,
      bert_encode tk L text = Some (ids, mask, segment_ids)
      ∧ length ids = Z.to_nat L
      ∧ length mask = Z.to_nat L
      ∧ (∀ i, (i < used_length)%nat -> mask !! i = Some 1)
      ∧ (∀ i, (used_length <= i < Z.to_nat L)%nat -> mask !! i = Some 0)
      ∧ segment_ids = replicate (Z.to_nat L) 0.
Proof.
  intros HL subwords used_length.
  pose proof (length_bert_tokens (L - 2) subwords) as Hlen.
  rewrite (length_query_tokens L subwords HL) in Hlen.
  fold used_length in Hlen. change (kept_subwords L (length subwords) + 2)%nat
    with used_length in Hlen.
  pose proof (length_bert_tokens_le L subwords HL) as Hle.
  split; [| split; [done | split; [lia |]]].
  { unfold bert_tokens. by rewrite query_tokens_take. }
  eexists _, _, _. split; [by apply bert_encode_eq |].
  fold subwords. rewrite Hlen.
  rewrite !length_app, length_map, !length_replicate, Hlen.
  split; [lia | split; [lia |]]. split; [| split; [| done]].
  - intros i Hi. rewrite lookup_app_l by (rewrite length_replicate; lia).
    by apply lookup_replicate_2.
  - intros i Hi. rewrite lookup_app_r by (rewrite length_replicate; lia).
    apply lookup_replicate_2. rewrite length_replicate. lia.
Qed.

(** The layout of C3 on a text of five subwords and four positions. *)
Lemma bert_encode_layout_witness :
  2 <= 4 <= INT_MAX
  ∧ ∃ ids mask segment_ids,
      bert_encode Sample.bert_tokenizer 4 "Good BAD film and more"
      = Some (ids, mask, segment_ids)
      ∧ mask !! 3%nat = Some 1 ∧ segment_ids = [0; 0; 0; 0].
Proof.
  assert (2 <= 4 <= INT_MAX) as HL by (unfold INT_MAX; lia).
  split; [exact HL |].
  destruct (bert_encode_layout Sample.bert_tokenizer 4
              "Good BAD film and more" HL)
    as (_ & _ & _ & ids & mask & seg & Henc & _ & _ & Hone & _ & Hseg).
  exists ids, mask, seg. split; [exact Henc |]. split; [| exact Hseg].
  apply Hone. vm_compute. lia.
Defined.

(** C9.  With a sequence length [L] of at least two every index the loop
    of the Bert encoder writes is below [L] and the encoder returns: no
    write leaves the arrays.  The bound rests on that precondition: below
    two, [L - 2] converted to [size_t] wraps around to [2^64 + (L - 2)],
    no subword is cut, the token sequence has all [n] subwords and two
    markers, more than [L], and a write leaves the arrays. *)
Theorem bert_writes_in_bounds (tk : Tokenizer) (L : Z) (text : string) :
  let subwords := Tokenize tk (AsciiStrToLower text) in
  let tokens := bert_tokens (L - 2) subwords in
  (2 <= L <= INT_MAX ->
     (∀ i, (i < length tokens)%nat -> Z.of_nat i < L)
     ∧ is_Some (bert_encode tk L text))
  ∧ (INT_MIN + 2 <= L < 2 ->
     Z.of_nat (length subwords) <= 2 ^ 63 ->
     to_size_t (L - 2) = SIZE_MODULUS + (L - 2)
     ∧ length tokens = (length subwords + 2)%nat
     ∧ L < Z.of_nat (length tokens)
     ∧ bert_encode tk L text = None).
Proof.
  intros subwords tokens. split.
  - intros HL. split.
    + intros i Hi.
      pose proof (length_bert_tokens_le L subwords HL). unfold tokens in Hi.
      lia.
    + rewrite bert_encode_eq by done. eauto.
  - intros HL Hn.
    destruct (query_tokens_underflow L subwords HL Hn) as [Hcast Hall].
    assert (length tokens = (length subwords + 2)%nat) as Hlen
      by (unfold tokens; by rewrite length_bert_tokens, Hall).
    split; [done | split; [done | split; [lia |]]].
    by apply bert_encode_short.
Qed.

(** The two cases of C9: four positions, and one position. *)
Lemma bert_writes_in_bounds_witness :
  (2 <= 4 <= INT_MAX
   ∧ is_Some (bert_encode Sample.bert_tokenizer 4 "good film"))
  ∧ (INT_MIN + 2 <= 1 < 2
     ∧ Z.of_nat (length (Tokenize Sample.bert_tokenizer
                           (AsciiStrToLower "good film"))) <= 2 ^ 63
     ∧ bert_encode Sample.bert_tokenizer 1 "good film" = None).
Proof.
  assert (2 <= 4 <= INT_MAX) as H4 by (unfold INT_MAX; lia).
  assert (INT_MIN + 2 <= 1 < 2) as H1 by (unfold INT_MIN; lia).
  assert (Z.of_nat (length (Tokenize Sample.bert_tokenizer
                              (AsciiStrToLower "good film"))) <= 2 ^ 63)
    as Hn by (vm_compute; discriminate).
  split.
  - split; [exact H4 |].
    exact (proj2 (proj1 (bert_writes_in_bounds Sample.bert_tokenizer 4
                           "good film") H4)).
  - split; [exact H1 | split; [exact Hn |]].
    exact (proj2 (proj2 (proj2
             (proj2 (bert_writes_in_bounds Sample.bert_tokenizer 1
                       "good film") H1 Hn)))).
Defined.

(* ------------------------------------------------------------------ *)
(** ** The Regex encoder *)

(** C4.  For every text the Regex encoder produces the array of the
    specification: pad ids throughout, the start id at position 0 when the
    tokenizer has one and the real tokens from position 1, else the real
    tokens from position 0; each subword in order as its vocabulary id, or
    the unknown id when the lookup fails, until the array is full or the
    subwords run out, the subwords beyond being dropped.  (An array with a
    start token has a position 0: the sentence length is at least one.)
    In particular, with start id [S], pad id [P], unknown id [U], length 5
    and subwords [t1], [t2] (unknown), [t3], the array is
    [S; id t1; U; id t3; P]. *)
Theorem regex_encode_spec (tk : Tokenizer) (rt : RegexTokenizer)
    (L : Z) (text : string) :
  0 <= L <= INT_MAX ->
  (is_Some (GetStartToken rt) -> 1 <= L) ->
  regex_encode tk rt L text
  = Some (regex_expected tk rt (Z.to_nat L) (Tokenize tk text))
  ∧ ∀ S P U t1 t2 t3 id1 id3,
      L = 5 ->
      GetStartToken rt = Some S -> GetPadToken rt = Some P ->
      GetUnknownToken rt = Some U ->
      Tokenize tk text = [t1; t2; t3] ->
      LookupId tk t1 = Some id1 -> LookupId tk t2 = None ->
      LookupId tk t3 = Some id3 ->
      regex_encode tk rt L text = Some [S; id1; U; id3; P].
Proof.
  intros HL Hstart. split; [by apply regex_encode_eq |].
  intros S P U t1 t2 t3 id1 id3 -> HS HP HU Hsub H1 H2 H3.
  rewrite regex_encode_eq by done.
  unfold regex_expected, regex_id. rewrite Hsub, HS, HP, HU. simpl.
  by rewrite H1, H2, H3.
Qed.

(** C4 on the sample tokenizer: "bad" is not in its vocabulary. *)
Lemma regex_encode_spec_witness :
  0 <= 5 <= INT_MAX
  ∧ regex_encode Sample.regex_tokenizer
      Sample.regex_accessors 5 "good bad film"
    = Some [1; 7; 2; 9; 0].
Proof.
  assert (0 <= 5 <= INT_MAX) as HL by (unfold INT_MAX; lia).
  split; [exact HL |].
  refine (proj2 (regex_encode_spec Sample.regex_tokenizer
                   Sample.regex_accessors 5
                   "good bad film" HL _)
            1 0 2 "good" "bad" "film" 7 9 _ _ _ _ _ _ _ _);
    try reflexivity.
  intros _. lia.
Defined.

(** The claim C5 fails on a buffer of rank three: for the shape
    [8 x 1 x 1] the array has eight entries, the last dimension is one. *)
Lemma regex_array_length_rank3 :
  ¬ array_length_is_last_dim Sample.regex_tokenizer
      Sample.regex_accessors [8; 1; 1] "good film".
Proof.
  intros Hclaim.
  specialize (Hclaim 8 [1; 7; 9; 0; 0; 0; 0; 0] eq_refl eq_refl).
  discriminate Hclaim.
Qed.

(** C5, amended.  The array of one call has exactly the sentence length of
    the buffer, which is the size of the second dimension of its shape for
    rank 2 and of the first dimension for every other rank, hence of the
    last dimension for the ranks 1 and 2; and every position behind the
    start token and the real tokens holds the pad id. *)
Theorem regex_array_length (tk : Tokenizer) (rt : RegexTokenizer)
    (shape : list Z) (d : Z) (text : string) :
  shape !! (if decide (length shape = 2)%nat then 1 else 0)%nat = Some d ->
  0 <= d <= INT_MAX ->
  (is_Some (GetStartToken rt) -> 1 <= d) ->
  ((length shape = 1 ∨ length shape = 2)%nat -> last shape = Some d)
  ∧ regex_max_sentence_length shape = Some d
  ∧ ∃ input_tokens,
      regex_encode tk rt d text = Some input_tokens
      ∧ Z.of_nat (length input_tokens) = d
      ∧ ∀ j, (first_token_index rt + length (Tokenize tk text) <= j
              < length input_tokens)%nat ->
             input_tokens !! j = Some (default 0 (GetPadToken rt)).
Proof.
  intros Hd Hrange Hstart. split; [| split].
  - intros [H1|H2].
    + destruct shape as [|a [|b rest]]; simpl in *; try lia.
      by injection Hd as <-.
    + destruct shape as [|a [|b [|c rest]]]; simpl in *; try lia.
      by injection Hd as <-.
  - unfold regex_max_sentence_length.
    destruct (decide (length shape = 2)%nat); rewrite Hd; simpl;
      by rewrite to_size_t_small by (unfold SIZE_MODULUS, INT_MAX in *; lia).
  - eexists. split; [by apply regex_encode_eq |].
    rewrite length_regex_expected. split; [lia |].
    intros j Hj. by apply regex_expected_pad.
Qed.

(** C5, amended, on a [1 x 5] buffer. *)
Lemma regex_array_length_witness :
  0 <= 5 <= INT_MAX
  ∧ last [1; 5] = Some 5
  ∧ regex_max_sentence_length [1; 5] = Some 5.
Proof.
  assert (0 <= 5 <= INT_MAX) as HL by (unfold INT_MAX; lia).
  split; [exact HL |].
  destruct (regex_array_length Sample.regex_tokenizer
              Sample.regex_accessors [1; 5] 5
              "good film" eq_refl HL ltac:(intros _; lia))
    as (Hlast & Hlen & _).
  split; [apply Hlast; right; reflexivity | exact Hlen].
Defined.

(** C10.  The start token is written at position 0 with no test of the
    length of the array.  For a sentence length of at least one that write
    and every write of the loop, which runs while
    [input_token_index < max_sentence_length], are inside the array: the
    encoder returns, with the start id at position 0.  A sentence length of
    at least one is required: with a start token, the encoder has a
    defined result only then. *)
Theorem regex_start_write_in_bounds (tk : Tokenizer) (rt : RegexTokenizer)
    (L : Z) (text : string) :
  0 <= L <= INT_MAX ->
  (1 <= L ->
     ∃ input_tokens,
       regex_encode tk rt L text = Some input_tokens
       ∧ ∀ start_token_id, GetStartToken rt = Some start_token_id ->
                           input_tokens !! 0%nat = Some start_token_id)
  ∧ (∀ start_token_id, GetStartToken rt = Some start_token_id ->
       (is_Some (regex_encode tk rt L text) <-> 1 <= L)).
Proof.
  intros HL. split.
  - intros HL1. eexists. split; [by apply regex_encode_eq |].
    intros s Hs. unfold regex_expected. rewrite Hs. simpl.
    destruct (Z.to_nat L) as [|n] eqn:Hn; [lia | done].
  - intros s Hs. split.
    + intros Hsome. destruct (Z.eq_dec L 0) as [->|]; [| lia].
      rewrite (regex_encode_empty_start tk rt text s Hs) in Hsome.
      by destruct Hsome.
    + intros HL1. rewrite regex_encode_eq by done. eauto.
Qed.

(** C10 on five positions. *)
Lemma regex_start_write_in_bounds_witness :
  0 <= 5 <= INT_MAX
  ∧ is_Some (regex_encode Sample.regex_tokenizer
               Sample.regex_accessors 5 "good film").
Proof.
  assert (0 <= 5 <= INT_MAX) as HL by (unfold INT_MAX; lia).
  split; [exact HL |].
  apply (proj2 (regex_start_write_in_bounds Sample.regex_tokenizer
                  Sample.regex_accessors 5
                  "good film" HL) 1 eq_refl).
  lia.
Defined.

(* ------------------------------------------------------------------ *)
(** ** Failed vocabulary lookups *)

(** C6.  In the Bert encoder the position of a token whose lookup fails
    keeps the [0] the array was created with; in the Regex encoder it gets
    the unknown id; and whatever the lookups return, a call on buffers that
    fit the preprocessor returns OK. *)
Theorem failed_lookup_tolerated :
  (∀ (tk : Tokenizer) L text ids mask segment_ids (i : nat) token,
     2 <= L <= INT_MAX ->
     bert_encode tk L text = Some (ids, mask, segment_ids) ->
     bert_tokens (L - 2) (Tokenize tk (AsciiStrToLower text)) !! i
     = Some token ->
     LookupId tk token = None ->
     ids !! i = Some 0)
  ∧ (∀ (tk : Tokenizer) rt L text input_tokens (i : nat) token,
       0 <= L <= INT_MAX ->
       regex_encode tk rt L text = Some input_tokens ->
       Tokenize tk text !! i = Some token ->
       Z.of_nat (first_token_index rt + i) < L ->
       LookupId tk token = None ->
       input_tokens !! (first_token_index rt + i)%nat
       = Some (default 0 (GetUnknownToken rt)))
  ∧ (∀ p (inputs : Inputs) text,
       fits p inputs ->
       ∃ p' inputs', Preprocess p inputs text = Some (OkStatus, p', inputs')).
Proof.
  split; [| split].
  - intros tk L text ids mask seg i token HL Henc Htok Hfail.
    pose proof (bert_encode_eq tk L text HL) as Heq. cbv zeta in Heq.
    rewrite Henc in Heq.
    set (tokens := bert_tokens (L - 2) _) in *.
    assert (ids = map (bert_id tk) tokens
                    ++ replicate (Z.to_nat L - length tokens) 0)
      as -> by congruence.
    apply lookup_lt_Some in Htok as Hlt.
    rewrite lookup_app_l by (by rewrite length_map).
    change (map (bert_id tk) ?l) with (bert_id tk <$> l).
    rewrite list_lookup_fmap, Htok. simpl.
    unfold bert_id. by rewrite Hfail.
  - intros tk rt L text arr i token HL Henc Htok Hpos Hfail.
    rewrite regex_encode_eq in Henc by (done || lia).
    injection Henc as <-.
    rewrite (regex_expected_token tk rt _ _ i token Htok) by lia.
    unfold regex_id. by rewrite Hfail.
  - intros p X text Hfits. unfold Preprocess.
    destruct (tokenzier_type_ p) eqn:Hty.
    + destruct (Passthrough_fits p X text Hty Hfits) as [X' HX'].
      unfold Preprocess in HX'. rewrite Hty in HX'. eauto.
    + destruct (RegexPreprocess_fits p X text Hty Hfits) as [X' HX']. eauto.
    + destruct (BertPreprocess_fits p X text Hty Hfits) as [X' HX']. eauto.
Qed.

(** C6 on the sample Regex preprocessor: "bad" is not in the vocabulary,
    the call returns OK. *)
Lemma failed_lookup_tolerated_witness :
  fits Sample.regex_preprocessor Sample.regex_inputs
  ∧ ∃ p' inputs',
      Preprocess Sample.regex_preprocessor Sample.regex_inputs
        "good bad film" = Some (OkStatus, p', inputs').
Proof.
  assert (fits Sample.regex_preprocessor Sample.regex_inputs) as Hfits.
  { exists Sample.regex_tokenizer, Sample.regex_accessors, 0,
      (Sample.int32_tensor "input_text" [1; 5] 20), 5.
    repeat split; try reflexivity.
    - unfold INT_MAX. lia.
    - intros _. lia. }
  split; [exact Hfits |].
  exact (proj2 (proj2 failed_lookup_tolerated)
           Sample.regex_preprocessor Sample.regex_inputs "good bad film"
           Hfits).
Defined.

(* ------------------------------------------------------------------ *)
(** ** Initialization *)

(** C7.  For three buffers, with the last dimensions of the three resolved
    buffers measured: when they are not all equal, [Init] returns the
    length error, which names the three lengths, and [Create] returns that
    error and no preprocessor; when they are equal, [Init] stores the
    shared length in [bert_max_seq_len_]. *)
Theorem Init_bert_lengths (c : Collaborators) (p : TextPreprocessor)
    (inputs : Inputs) (index0 index1 index2 : Z)
    (ids_len mask_len segment_ids_len : Z) :
  tensor_indices_ p = [index0; index1; index2] ->
  let found := FindIndexByMetadataTensorName c (GetInputTensorMetadata c) in
  GetLastDimSize inputs (index_or (found kIdsTensorName) index0)
  = Some ids_len ->
  GetLastDimSize inputs (index_or (found kMaskTensorName) index1)
  = Some mask_len ->
  GetLastDimSize inputs (index_or (found kSegmentIdsTensorName) index2)
  = Some segment_ids_len ->
  let error := bert_length_error ids_len mask_len segment_ids_len in
  (¬ (ids_len = mask_len ∧ ids_len = segment_ids_len) ->
     (∃ p', Init c p inputs = Some (error, p'))
     ∧ code error = kInternal
     ∧ payload error = Some kInvalidNumOutputTensorsError
     ∧ message error
       = "The three input tensors in Bert models are expected to have same "
           +:+ "length, but got ids_tensor ("
           +:+ fmt_d ids_len +:+ "), mask_tensor (" +:+ fmt_d mask_len
           +:+ "), segment_ids_tensor (" +:+ fmt_d segment_ids_len +:+ ")."
     ∧ (∀ input_tensor_indices,
          length input_tensor_indices = 3%nat ->
          Processor_Create c 3 input_tensor_indices false = StatusOk p ->
          Create c inputs input_tensor_indices = Some (StatusErr error)))
  ∧ (ids_len = mask_len ∧ ids_len = segment_ids_len ->
     ∃ s p', Init c p inputs = Some (s, p')
             ∧ bert_max_seq_len_ p' = ids_len).
Proof.
  intros Hidx found Hids Hmask Hseg error.
  assert (¬ (ids_len = mask_len ∧ ids_len = segment_ids_len) ->
          ∃ p', Init c p inputs = Some (error, p')) as Hfail.
  { intros Hne. unfold Init. rewrite Hidx. simpl.
    fold found. rewrite Hids, Hmask, Hseg. simpl.
    destruct (negb (ids_len =? mask_len)
              || negb (ids_len =? segment_ids_len)) eqn:Hb; [eauto |].
    exfalso. apply Hne.
    apply orb_false_elim in Hb as [H1 H2].
    apply negb_false_iff in H1, H2. by apply Z.eqb_eq in H1, H2. }
  split.
  - intros Hne. destruct (Hfail Hne) as [p' Hp'].
    split; [eauto |]. repeat (split; [reflexivity |]).
    intros indices Hlen Hcreate. unfold Create.
    rewrite Hlen, Hcreate. simpl. rewrite Hp'. reflexivity.
  - intros [<- <-]. unfold Init. rewrite Hidx. simpl.
    fold found. rewrite Hids, Hmask, Hseg. simpl.
    rewrite Z.eqb_refl. simpl. unfold Init_tokenizer.
    destruct (CreateTokenizerFromProcessUnit c _); eauto.
Qed.

(** C7 on buffers of lengths 8, 6 and 8: construction fails. *)
Lemma Init_bert_lengths_witness :
  ¬ (8 = 6 ∧ 8 = 8)
  ∧ Create Sample.bert_collaborators Sample.bert_inputs_unequal [0; 1; 2]
    = Some (StatusErr (bert_length_error 8 6 8)).
Proof.
  assert (¬ (8 = 6 ∧ 8 = 8)) as Hne by (intros [H _]; discriminate H).
  split; [exact Hne |].
  exact (proj2 (proj2 (proj2 (proj2
           (proj1 (Init_bert_lengths Sample.bert_collaborators
                     (Sample.fresh [0; 1; 2]) Sample.bert_inputs_unequal
                     0 1 2 8 6 8 eq_refl eq_refl eq_refl eq_refl) Hne))))
           [0; 1; 2] eq_refl eq_refl).
Defined.

(** C8.  For one buffer: when regex-tokenizer options are attached to the
    metadata of the buffer and its element type is not [kTfLiteInt32], the
    search fails with the type error, which names the buffer and its type,
    and so does [Init] for a buffer that is not a string buffer; when there
    is no metadata, or no such options in it, the search returns no process
    unit and no error. *)
Theorem TryFindRegexTokenizerMetadata_spec (c : Collaborators)
    (p : TextPreprocessor) (inputs : Inputs) (index : Z) (t : TfLiteTensor) :
  tensor_indices_ p = [index] ->
  GetInput inputs index = Some t ->
  (∀ tensor_metadata tokenizer_metadata,
     GetTensorMetadata c index = Some tensor_metadata ->
     FindFirstProcessUnit c tensor_metadata
       ProcessUnitOptions_RegexTokenizerOptions
     = StatusOk (Some tokenizer_metadata) ->
     type t ≠ kTfLiteInt32 ->
     TryFindRegexTokenizerMetadata c p inputs
     = Some (StatusErr (type_mismatch_error t))
     ∧ code (type_mismatch_error t) = kInvalidArgument
     ∧ payload (type_mismatch_error t) = Some kInvalidInputTensorTypeError
     ∧ message (type_mismatch_error t)
       = "Type mismatch for input tensor " +:+ name t
           +:+ ". Requested INT32 for RegexTokenizer, got "
           +:+ TfLiteTypeGetName (type t) +:+ "."
     ∧ (type t ≠ kTfLiteString ->
        Init c p inputs = Some (type_mismatch_error t, p)))
  ∧ (GetTensorMetadata c index = None
     ∨ (∃ tensor_metadata,
          GetTensorMetadata c index = Some tensor_metadata
          ∧ FindFirstProcessUnit c tensor_metadata
              ProcessUnitOptions_RegexTokenizerOptions = StatusOk None) ->
     TryFindRegexTokenizerMetadata c p inputs = Some (StatusOk None)).
Proof.
  intros Hidx Ht.
  assert (GetTensorIndex p = Some index) as Hindex
    by (unfold GetTensorIndex; by rewrite Hidx).
  split.
  - intros md pu Hmd Hfind Hty.
    assert (TryFindRegexTokenizerMetadata c p inputs
            = Some (StatusErr (type_mismatch_error t))) as Htry.
    { unfold TryFindRegexTokenizerMetadata, GetTensor.
      rewrite Hindex. simpl. rewrite Hmd, Hfind. simpl.
      rewrite Ht. simpl. by destruct (type t). }
    split; [done |]. repeat (split; [reflexivity |]).
    intros Hstr. unfold Init, GetTensor. rewrite Hidx, Hindex. simpl.
    rewrite Ht. simpl.
    replace (is_string (type t)) with false by (by destruct (type t)).
    by rewrite Htry.
  - intros Hnone. unfold TryFindRegexTokenizerMetadata.
    rewrite Hindex. simpl.
    destruct Hnone as [-> | (md & -> & ->)]; done.
Qed.

(** C8 on a float buffer that carries regex-tokenizer options. *)
Lemma TryFindRegexTokenizerMetadata_spec_witness :
  kTfLiteFloat32 ≠ kTfLiteInt32
  ∧ TryFindRegexTokenizerMetadata Sample.regex_collaborators
      (Sample.fresh [0]) Sample.float_inputs
    = Some (StatusErr
              (type_mismatch_error
                 (mkTensor "input_text" kTfLiteFloat32 [1; 5] 20 Unwritten))).
Proof.
  assert (kTfLiteFloat32 ≠ kTfLiteInt32) as Hty by discriminate.
  split; [exact Hty |].
  exact (proj1 (proj1 (TryFindRegexTokenizerMetadata_spec
                         Sample.regex_collaborators (Sample.fresh [0])
                         Sample.float_inputs 0
                         (mkTensor "input_text" kTfLiteFloat32 [1; 5] 20
                            Unwritten)
                         eq_refl eq_refl)
                  (mkTensorMetadata "input_text" [Sample.regex_options])
                  Sample.regex_options eq_refl eq_refl Hty)).
Defined.

(* ------------------------------------------------------------------ *)
(** ** Consecutive calls *)

(** The claim C1 fails on two configurations.  A Bert preprocessor whose
    buffers hold two rows of four ids: the arrays of length four do not fit
    them and the first call returns the error of the write.  A Regex
    preprocessor: the first call returns OK and leaves [tokenizer_] null,
    the second call has no defined result. *)
Lemma consecutive_calls_counterexample :
  ¬ both_calls_succeed_alike Sample.bert_preprocessor
      Sample.bert_inputs_two_rows "good film"
  ∧ ¬ both_calls_succeed_alike Sample.regex_preprocessor
        Sample.regex_inputs "good bad film".
Proof.
  split.
  - intros (p1 & X1 & p2 & H1 & _). vm_compute in H1. discriminate H1.
  - intros (p1 & X1 & p2 & H1 & H2).
    assert (tokenizer_ p1 = None) as Hnull.
    { apply RegexPreprocess_releases in H1. by subst p1. }
    assert (tokenzier_type_ p1 = kRegex) as Hty.
    { apply RegexPreprocess_releases in H1. by subst p1. }
    unfold Preprocess in H2. rewrite Hty in H2.
    by rewrite RegexPreprocess_null in H2.
Qed.

(** C1, amended.  For the Passthrough and the Bert variant and every text:
    a call that returns leaves the members as they were, and the same call
    made again returns the same status and leaves the buffers as the first
    call left them; on buffers that fit the preprocessor both calls return
    OK. *)
Theorem Preprocess_repeatable (p : TextPreprocessor) (inputs : Inputs)
    (text : string) :
  tokenzier_type_ p ≠ kRegex ->
  (∀ s p1 inputs1,
     Preprocess p inputs text = Some (s, p1, inputs1) ->
     p1 = p ∧ Preprocess p1 inputs1 text = Some (s, p1, inputs1))
  ∧ (fits p inputs ->
     ∃ inputs1,
       Preprocess p inputs text = Some (OkStatus, p, inputs1)
       ∧ Preprocess p inputs1 text = Some (OkStatus, p, inputs1)).
Proof.
  intros Hty.
  assert (∀ s p1 inputs1,
            Preprocess p inputs text = Some (s, p1, inputs1) ->
            p1 = p ∧ Preprocess p1 inputs1 text = Some (s, p1, inputs1))
    as Hagain.
  { intros s p1 X1 H1.
    destruct (Preprocess_again p inputs text s p1 X1 Hty H1) as [-> H2].
    done. }
  split; [exact Hagain |].
  intros Hfits.
  assert (∃ X1, Preprocess p inputs text = Some (OkStatus, p, X1))
    as [X1 H1].
  { destruct (tokenzier_type_ p) eqn:Hp; [| done |].
    - by apply Passthrough_fits.
    - destruct (BertPreprocess_fits p inputs text Hp Hfits) as [X1 H1].
      exists X1. unfold Preprocess. by rewrite Hp. }
  exists X1. split; [done |]. by apply (Hagain _ _ _ H1).
Qed.

(** C1, amended, on the sample Bert preprocessor. *)
Lemma Preprocess_repeatable_witness :
  tokenzier_type_ Sample.bert_preprocessor ≠ kRegex
  ∧ fits Sample.bert_preprocessor Sample.bert_inputs
  ∧ ∃ inputs1,
      Preprocess Sample.bert_preprocessor Sample.bert_inputs "Good film"
      = Some (OkStatus, Sample.bert_preprocessor, inputs1)
      ∧ Preprocess Sample.bert_preprocessor inputs1 "Good film"
        = Some (OkStatus, Sample.bert_preprocessor, inputs1).
Proof.
  assert (tokenzier_type_ Sample.bert_preprocessor ≠ kRegex) as Hty
    by discriminate.
  assert (fits Sample.bert_preprocessor Sample.bert_inputs) as Hfits.
  { split; [by eexists |]. split; [unfold INT_MAX; simpl; lia |].
    repeat split; eexists; (split; [reflexivity |]); split; reflexivity. }
  split; [exact Hty |]. split; [exact Hfits |].
  exact (proj2 (Preprocess_repeatable Sample.bert_preprocessor
                  Sample.bert_inputs "Good film" Hty) Hfits).
Defined.

(** C2, on the code.  After an [Init] that returns OK, the Regex and the
    Bert variant hold the tokenizer the factory made (the collaborators
    reporting their failures with a status that is not OK).  The Bert
    variant keeps it over a call.  The Regex variant does not: a call on
    buffers that fit returns OK and leaves [tokenizer_] null, the tokenizer
    being deleted with the local pointer of the call, and every later call
    has no defined result. *)
Theorem RegexPreprocess_gives_up_tokenizer (p : TextPreprocessor)
    (inputs : Inputs) (text : string) :
  (∀ (c : Collaborators) p0 s,
     (∀ process_unit e,
        CreateTokenizerFromProcessUnit c process_unit = StatusErr e ->
        ok e = false) ->
     (∀ tensor_metadata options_type e,
        FindFirstProcessUnit c tensor_metadata options_type = StatusErr e ->
        ok e = false) ->
     Init c p0 inputs = Some (s, p) ->
     ok s = true ->
     tokenzier_type_ p ≠ kNone ->
     is_Some (tokenizer_ p))
  ∧ (tokenzier_type_ p = kBert ->
     ∀ s p1 inputs1,
       Preprocess p inputs text = Some (s, p1, inputs1) ->
       tokenizer_ p1 = tokenizer_ p)
  ∧ (tokenzier_type_ p = kRegex ->
     fits p inputs ->
     is_Some (tokenizer_ p)
     ∧ ∃ p1 inputs1,
         Preprocess p inputs text = Some (OkStatus, p1, inputs1)
         ∧ tokenizer_ p1 = None
         ∧ ∀ inputs2 text2, Preprocess p1 inputs2 text2 = None).
Proof.
  split; [| split].
  - intros c p0 s Hfactory Hfind HInit Hok Hty.
    by destruct (Init_holds_tokenizer c p0 inputs s p Hfactory Hfind
                   HInit Hok).
  - intros Hty s p1 X1 H1.
    destruct (Preprocess_again p inputs text s p1 X1) as [-> _];
      [by rewrite Hty | done | done].
  - intros Hty Hfits. split.
    { unfold fits in Hfits. rewrite Hty in Hfits.
      destruct Hfits as (tk & _ & _ & _ & _ & -> & _). eauto. }
    destruct (RegexPreprocess_fits p inputs text Hty Hfits) as [X1 H1].
    exists (set_tokenizer_ None p), X1. unfold Preprocess at 1.
    rewrite Hty. split; [done |]. split; [done |].
    intros X2 text2. unfold Preprocess. simpl. rewrite Hty.
    by apply RegexPreprocess_null.
Qed.

(** C2 on the sample Regex preprocessor: after one call the tokenizer is
    gone and the second call has no defined result. *)
Lemma RegexPreprocess_gives_up_tokenizer_witness :
  tokenzier_type_ Sample.regex_preprocessor = kRegex
  ∧ fits Sample.regex_preprocessor Sample.regex_inputs
  ∧ ∃ p1 inputs1,
      Preprocess Sample.regex_preprocessor Sample.regex_inputs
        "good bad film" = Some (OkStatus, p1, inputs1)
      ∧ tokenizer_ p1 = None
      ∧ Preprocess p1 inputs1 "good bad film" = None.
Proof.
  assert (fits Sample.regex_preprocessor Sample.regex_inputs) as Hfits.
  { exists Sample.regex_tokenizer, Sample.regex_accessors, 0,
      (Sample.int32_tensor "input_text" [1; 5] 20), 5.
    repeat split; try reflexivity.
    - unfold INT_MAX. lia.
    - intros _. lia. }
  split; [reflexivity |]. split; [exact Hfits |].
  destruct (proj2 (proj2 (proj2 (RegexPreprocess_gives_up_tokenizer
                                   Sample.regex_preprocessor
                                   Sample.regex_inputs "good bad film"))
                     eq_refl Hfits))
    as (p1 & X1 & H1 & Hnull & Hlater).
  exists p1, X1. split; [exact H1 |]. split; [exact Hnull |].
  apply Hlater.
Defined.


(* ================================================================== *)
(** ** Further facts on the encoders *)

Lemma ascii_tolower_idemp c : ascii_tolower (ascii_tolower c) = ascii_tolower c.
Proof. by destruct c as [[] [] [] [] [] [] [] []]. Qed.

Lemma AsciiStrToLower_idemp s :
  AsciiStrToLower (AsciiStrToLower s) = AsciiStrToLower s.
Proof.
  induction s as [|c r IH]; simpl; [done |].
  by rewrite ascii_tolower_idemp, IH.
Qed.

Lemma take_min_length {A} (l : list A) k :
  take (Nat.min (length l) k) l = take k l.
Proof.
  destruct (Nat.le_gt_cases (length l) k).
  - rewrite Nat.min_l by done. by rewrite !take_ge by lia.
  - by rewrite Nat.min_r by lia.
Qed.

(** The token sequence is built from the first [L - 2] subwords only. *)
Lemma bert_tokens_take L subwords :
  2 <= L <= INT_MAX ->
  bert_tokens (L - 2) subwords
  = kClassificationToken :: take (Z.to_nat (L - 2)) subwords ++ [kSeparator].
Proof.
  intros HL. unfold bert_tokens. rewrite query_tokens_take by done.
  unfold kept_subwords. by rewrite take_min_length.
Qed.


(** Equal prefixes that are shorter than the cut are the whole lists. *)
Lemma take_eq_short {A} (l l' : list A) k :
  take k l = take k l' -> (length l < k)%nat -> l = l'.
Proof.
  intros Htake Hlen.
  assert (length l' = length l) as Hl'.
  { apply (f_equal length) in Htake. rewrite !length_take in Htake. lia. }
  rewrite <- (take_ge l k), <- (take_ge l' k) by lia. done.
Qed.

Lemma regex_expected_prefix tk rt len subwords subwords' :
  take (len - first_token_index rt) subwords
  = take (len - first_token_index rt) subwords' ->
  regex_expected tk rt len subwords = regex_expected tk rt len subwords'.
Proof.
  intros Htake. unfold regex_expected, first_token_index in *.
  set (pre := option_list (GetStartToken rt)) in *.
  destruct (Nat.lt_ge_cases (length subwords) (len - length pre)) as [Hs|Hs].
  { by rewrite (take_eq_short _ _ _ Htake Hs). }
  assert (len - length pre <= length subwords')%nat as Hs'.
  { apply (f_equal length) in Htake. rewrite !length_take in Htake. lia. }
  rewrite !take_app, !length_app, !length_map.
  change (map (regex_id tk rt) ?l) with (regex_id tk rt <$> l).
  rewrite <- !fmap_take, Htake.
  by replace (len - (length pre + length subwords))%nat with 0%nat by lia;
    replace (len - (length pre + length subwords'))%nat with 0%nat by lia.
Qed.


(* ================================================================== *)
(** ** Further facts on writes and calls *)

Section MoreBuffers.
Implicit Types (X Y : Inputs) (p : TextPreprocessor).
Implicit Types (w : TfLiteTensor -> StatusOr TfLiteTensor).

Lemma GetInput_set_input X index t t' j :
  GetInput X index = Some t ->
  GetInput (set_input index t' X) j
  = if decide (j = index) then Some t' else GetInput X j.
Proof.
  unfold GetInput, set_input. intros Ht.
  destruct (Z.leb_spec 0 index) as [Hpos|]; [| done].
  destruct (decide (j = index)) as [->|Hne].
  - destruct (Z.leb_spec 0 index); [| lia].
    apply list_lookup_insert_eq. by eapply lookup_lt_Some.
  - destruct (Z.leb_spec 0 j); [| done].
    apply list_lookup_insert_ne. lia.
Qed.




Lemma Preprocess_runs_writes p X text s p1 X1 :
  Preprocess p X text = Some (s, p1, X1) ->
  ∃ ws, Forall (λ iw, blind iw.2) ws
        ∧ ws.*1 = managed_indices p
        ∧ populate_all ws X = Some (s, X1).
Proof.
  unfold Preprocess, managed_indices.
  destruct (tokenzier_type_ p).
  - destruct (GetTensorIndex p) as [index|]; [| done].
    cbn [mbind option_bind].
    destruct (populate_tensor _ index X) as [[s' X']|] eqn:Hpop; [| done].
    cbn [mbind option_bind]. intros [= -> _ ->].
    exists [(index, PopulateTensor_string text)].
    split; [repeat constructor; apply blind_string |]. split; [done |].
    by rewrite populate_all_single by apply blind_string.
  - unfold RegexPreprocess.
    destruct (GetTensorIndex p) as [index|]; [| done].
    cbn [mbind option_bind].
    destruct (GetInput X index); [| done]. cbn [mbind option_bind].
    destruct (tokenizer_ p) as [tk|]; [| done]. cbn [mbind option_bind].
    destruct (as_RegexTokenizer tk) as [rt|]; [| done].
    cbn [mbind option_bind].
    destruct (regex_max_sentence_length _) as [L|]; [| done].
    cbn [mbind option_bind].
    destruct (regex_encode tk rt L text) as [arr|]; [| done].
    cbn [mbind option_bind].
    destruct (populate_tensor _ index X) as [[s' X']|] eqn:Hpop; [| done].
    cbn [mbind option_bind]. intros [= -> _ ->].
    exists [(index, PopulateTensor_ints arr)].
    split; [repeat constructor; apply blind_ints |]. split; [done |].
    by rewrite populate_all_single by apply blind_ints.
  - rewrite BertPreprocess_unfold.
    destruct (GetInput X (ids_tensor_index_ p)); [| done].
    destruct (GetInput X (mask_tensor_index_ p)); [| done].
    destruct (GetInput X (segment_ids_tensor_index_ p)); [| done].
    destruct (tokenizer_ p) as [tk|]; [| done]. cbn [mbind option_bind].
    destruct (bert_encode tk _ text) as [[[ids mask] seg]|]; [| done].
    cbn [mbind option_bind].
    destruct (populate_all _ X) as [[s' X']|] eqn:Hrun; [| done].
    cbn [mbind option_bind]. intros [= -> _ ->].
    exists (bert_writes p ids mask seg).
    split; [apply blind_bert_writes | done].
Qed.


Lemma PopulateTensor_ints_ok v t :
  type t = kTfLiteInt32 -> bytes t = 4 * Z.of_nat (length v) ->
  PopulateTensor_ints v t = StatusOk (set_data (IntData v) t).
Proof.
  intros Hty Hb. unfold PopulateTensor_ints. rewrite Hty, Hb. simpl.
  by rewrite Z.eqb_refl.
Qed.

Lemma PopulateTensor_ints_rejects v t :
  ¬ (type t = kTfLiteInt32 ∧ bytes t = 4 * Z.of_nat (length v)) ->
  ∃ e, PopulateTensor_ints v t = StatusErr e ∧ ok e = false.
Proof.
  intros Hno. unfold PopulateTensor_ints.
  destruct (is_int32 (type t)) eqn:Hty; simpl; [| eauto].
  destruct (Z.eqb_spec (bytes t) (4 * Z.of_nat (length v))) as [Hb|];
    simpl; [| eauto].
  exfalso. apply Hno. split; [by destruct (type t) | done].
Qed.

Lemma populate_ints_exact v X index t :
  GetInput X index = Some t ->
  type t = kTfLiteInt32 -> bytes t = 4 * Z.of_nat (length v) ->
  populate_tensor (PopulateTensor_ints v) index X
  = Some (OkStatus, set_input index (set_data (IntData v) t) X).
Proof.
  intros Ht Hty Hb. unfold populate_tensor. rewrite Ht. simpl.
  by rewrite PopulateTensor_ints_ok.
Qed.

Lemma populate_failed w X index t e :
  GetInput X index = Some t -> w t = StatusErr e ->
  populate_tensor w index X = Some (e, X).
Proof.
  intros Ht Hw. unfold populate_tensor. rewrite Ht. simpl. by rewrite Hw.
Qed.

(** An input that accepts an array still does after a write of contents. *)
Lemma accepts_ints_set_input n X index t d j :
  GetInput X index = Some t ->
  accepts_ints n X j ->
  accepts_ints n (set_input index (set_data d t) X) j.
Proof.
  intros Ht (u & Hu & Hty & Hb). unfold accepts_ints.
  rewrite (GetInput_set_input _ _ t) by done.
  destruct (decide (j = index)) as [->|]; [| eauto].
  rewrite Ht in Hu. injection Hu as ->. eauto.
Qed.


(** A run that returns OK made every write. *)
Lemma executed_all ws : Forall (λ iw, blind iw.2) ws ->
  ∀ X s X',
  populate_all ws X = Some (s, X') -> ok s = true ->
  executed ws X = Z.to_nat <$> ws.*1.
Proof.
  induction 1 as [|[index w] rest (_ & _ & Hfail) _ IH];
    intros X s X' Hrun Hok; simpl in *; [done |].
  unfold return_if_error in Hrun.
  destruct (populate_tensor w index X) as [[s1 X1]|] eqn:Hpop; [| done].
  simpl in Hrun.
  destruct (populate_cases _ _ _ _ _ Hpop)
    as (_ & t & _ & [(t' & _ & -> & ->) | [Hw ->]]).
  - simpl in *. f_equal. by eapply IH.
  - rewrite (Hfail _ _ Hw) in Hrun. injection Hrun as <- _.
    by rewrite (Hfail _ _ Hw) in Hok.
Qed.

(** Two runs of writes aimed at the same inputs, both returning OK: the
    second returns the same from the inputs the first left. *)
Lemma populate_all_overwrites ws1 ws2 X X1 X2 s1 s2 :
  Forall (λ iw, blind iw.2) ws1 -> Forall (λ iw, blind iw.2) ws2 ->
  ws1.*1 = ws2.*1 ->
  populate_all ws1 X = Some (s1, X1) -> ok s1 = true ->
  populate_all ws2 X = Some (s2, X2) -> ok s2 = true ->
  populate_all ws2 X1 = Some (s2, X2).
Proof.
  intros Hws1 Hws2 Hidx Hrun1 Hok1 Hrun2 Hok2.
  apply (populate_all_agree ws2 Hws2 X X1 s2 X2 Hrun2).
  rewrite (executed_all ws2 Hws2 X s2 X2 Hrun2 Hok2), <- Hidx.
  rewrite <- (executed_all ws1 Hws1 X s1 X1 Hrun1 Hok1).
  by apply (populate_all_written ws1 Hws1 X s1).
Qed.

(** A call of the Regex variant on a tokenizer and a buffer of a sentence
    length: one write of the array of the encoder. *)
Lemma RegexPreprocess_call p X text tk rt index t L :
  tokenzier_type_ p = kRegex ->
  tokenizer_ p = Some tk -> as_RegexTokenizer tk = Some rt ->
  GetTensorIndex p = Some index ->
  GetInput X index = Some t ->
  regex_max_sentence_length (dims t) = Some L ->
  L <= INT_MAX ->
  (is_Some (GetStartToken rt) -> 1 <= L) ->
  Preprocess p X text
  = '(s, X') ← populate_tensor
                 (PopulateTensor_ints
                    (regex_expected tk rt (Z.to_nat L) (Tokenize tk text)))
                 index X;
    Some (s, set_tokenizer_ None p, X').
Proof.
  intros Hty Htk Hrt Hidx Ht HL HLmax Hstart.
  pose proof (regex_max_sentence_length_nonneg _ _ HL) as HL0.
  unfold Preprocess. rewrite Hty. unfold RegexPreprocess.
  rewrite Hidx. cbn [mbind option_bind]. rewrite Ht, Htk.
  cbn [mbind option_bind]. rewrite Hrt. cbn [mbind option_bind].
  rewrite HL. cbn [mbind option_bind].
  by rewrite regex_encode_eq by (done || lia).
Qed.

(** [Init] on one buffer that is not a string buffer: the search, then the
    factory on what the search found. *)
Lemma Init_after_search (c : Collaborators) p X index t found :
  tensor_indices_ p = [index] ->
  GetInput X index = Some t ->
  type t ≠ kTfLiteString ->
  TryFindRegexTokenizerMetadata c p X = Some found ->
  Init c p X
  = Some match found with
         | StatusErr s => (s, p)
         | StatusOk tokenzier_metadata =>
             Init_tokenizer c tokenzier_metadata
               (set_tokenzier_type_ kRegex p)
         end.
Proof.
  intros Hidx Ht Hty Hfound.
  assert (is_string (type t) = false) as Hstr by (by destruct (type t)).
  unfold Init, GetTensor, GetTensorIndex. rewrite Hidx. simpl.
  rewrite Ht. simpl. rewrite Hstr, Hfound. simpl. by destruct found.
Qed.

Lemma TryFindRegexTokenizerMetadata_found (c : Collaborators) p X index t
    tensor_metadata tokenizer_metadata :
  tensor_indices_ p = [index] ->
  GetInput X index = Some t ->
  GetTensorMetadata c index = Some tensor_metadata ->
  FindFirstProcessUnit c tensor_metadata
    ProcessUnitOptions_RegexTokenizerOptions
  = StatusOk (Some tokenizer_metadata) ->
  type t = kTfLiteInt32 ->
  TryFindRegexTokenizerMetadata c p X
  = Some (StatusOk (Some tokenizer_metadata)).
Proof.
  intros Hidx Ht Hmd Hfind Hint.
  unfold TryFindRegexTokenizerMetadata, GetTensor, GetTensorIndex.
  rewrite Hidx. simpl. rewrite Hmd, Hfind. simpl. rewrite Ht. simpl.
  by rewrite Hint.
Qed.

(** [Init] on three buffers of one length: the members are set, then the
    factory is called on the first input process unit. *)
Lemma Init_bert_step (c : Collaborators) p X index0 index1 index2 len :
  tensor_indices_ p = [index0; index1; index2] ->
  let found := FindIndexByMetadataTensorName c (GetInputTensorMetadata c) in
  let ids := index_or (found kIdsTensorName) index0 in
  let mask := index_or (found kMaskTensorName) index1 in
  let segment_ids := index_or (found kSegmentIdsTensorName) index2 in
  GetLastDimSize X ids = Some len ->
  GetLastDimSize X mask = Some len ->
  GetLastDimSize X segment_ids = Some len ->
  Init c p X
  = Some (Init_tokenizer c (GetInputProcessUnit c kTokenizerProcessUnitIndex)
            (mkTextPreprocessor [index0; index1; index2] (tokenizer_ p)
               kBert ids mask segment_ids len)).
Proof.
  intros Hidx found ids mask seg Hids Hmask Hseg.
  unfold Init. rewrite Hidx. simpl.
  fold found. fold ids mask seg. rewrite Hids, Hmask, Hseg. simpl.
  rewrite Z.eqb_refl. simpl.
  unfold set_bert_max_seq_len_, set_bert_indices_, set_tokenzier_type_.
  simpl. by rewrite Hidx.
Qed.

End MoreBuffers.

(** The side conditions of the sample configurations. *)
Ltac sample_range := unfold INT_MAX, INT_MIN; simpl; lia.
Ltac sample_accepts t :=
  exists t; split; [reflexivity | split; reflexivity].

Lemma sample_bert_fits : fits Sample.bert_preprocessor Sample.bert_inputs.
Proof.
  split; [by eexists |]. split; [sample_range |].
  split; [sample_accepts (Sample.int32_tensor "ids" [1; 4] 16) |].
  split; [sample_accepts (Sample.int32_tensor "mask" [1; 4] 16) |].
  sample_accepts (Sample.int32_tensor "segment_ids" [1; 4] 16).
Defined.

(* ================================================================== *)
(** * Further properties of the code *)

(* ------------------------------------------------------------------ *)
(** ** Construction *)

(** X1.  [Create] on a number of inputs other than one and three returns
    the count error without calling [Processor::Create] or [Init]; on one
    or three inputs it returns the error of [Processor::Create] unchanged;
    and it returns a preprocessor only for one or three inputs, the one
    [Init] left, [Init] having returned OK. *)
Theorem Create_outcomes (c : Collaborators) (inputs : Inputs)
    (input_tensor_indices : list Z) :
  let size := length input_tensor_indices in
  (size ≠ 1%nat -> size ≠ 3%nat ->
   Create c inputs input_tensor_indices
   = Some (StatusErr (tensor_count_error size)))
  ∧ (∀ e, size = 1%nat ∨ size = 3%nat ->
       Processor_Create c size input_tensor_indices false = StatusErr e ->
       Create c inputs input_tensor_indices = Some (StatusErr e))
  ∧ (∀ p', Create c inputs input_tensor_indices = Some (StatusOk p') ->
       (size = 1%nat ∨ size = 3%nat)
       ∧ ∃ p0 s,
           Processor_Create c size input_tensor_indices false = StatusOk p0
           ∧ Init c p0 inputs = Some (s, p') ∧ ok s = true).
Proof.
  intros size. unfold Create. fold size. split; [| split].
  - intros H1 H3.
    destruct (Nat.eqb_spec size 1), (Nat.eqb_spec size 3); done.
  - intros e Hsize Hcreate.
    destruct Hsize as [-> | ->]; simpl; by rewrite Hcreate.
  - intros p'.
    destruct (Nat.eqb_spec size 1) as [H1|H1],
      (Nat.eqb_spec size 3) as [H3|H3]; simpl; try done; try lia.
    + destruct (Processor_Create c size _ false) as [p0|e]; [| done].
      destruct (Init c p0 inputs) as [[s q]|] eqn:HInit; [| done]. simpl.
      destruct (ok s) eqn:Hok; [| done]. intros [= <-].
      split; [by left |]. eauto.
    + destruct (Processor_Create c size _ false) as [p0|e]; [| done].
      destruct (Init c p0 inputs) as [[s q]|] eqn:HInit; [| done]. simpl.
      destruct (ok s) eqn:Hok; [| done]. intros [= <-].
      split; [by right |]. eauto.
Qed.


Lemma Create_outcomes_witness :
  length [0; 1] ≠ 1%nat ∧ length [0; 1] ≠ 3%nat
  ∧ Create Sample.bert_collaborators Sample.bert_inputs [0; 1]
    = Some (StatusErr (tensor_count_error 2)).
Proof.
  assert (length [0; 1] ≠ 1%nat) as H1 by discriminate.
  assert (length [0; 1] ≠ 3%nat) as H3 by discriminate.
  split; [exact H1 |]. split; [exact H3 |].
  exact (proj1 (Create_outcomes Sample.bert_collaborators Sample.bert_inputs
                  [0; 1]) H1 H3).
Defined.

(** X2.  One string buffer: [Init] returns OK with the variant
    Passthrough, whatever the collaborators, and creates no tokenizer; a
    call then returns OK, the buffer holds the text unchanged and every
    other buffer is as it was. *)
Theorem Passthrough_end_to_end (c : Collaborators) (p : TextPreprocessor)
    (inputs : Inputs) (index : Z) (t : TfLiteTensor) (text : string) :
  tensor_indices_ p = [index] ->
  GetInput inputs index = Some t ->
  type t = kTfLiteString ->
  let p' := set_tokenzier_type_ kNone p in
  let inputs' := set_input index (set_data (StringData text) t) inputs in
  Init c p inputs = Some (OkStatus, p')
  ∧ tokenizer_ p' = tokenizer_ p
  ∧ Preprocess p' inputs text = Some (OkStatus, p', inputs')
  ∧ data <$> GetInput inputs' index = Some (StringData text)
  ∧ ∀ j, j ≠ index -> GetInput inputs' j = GetInput inputs j.
Proof.
  intros Hidx Ht Hty p' inputs'.
  assert (GetTensorIndex p = Some index) as Hindex
    by (unfold GetTensorIndex; by rewrite Hidx).
  split; [| split; [done | split; [| split]]].
  - unfold Init, GetTensor. rewrite Hidx, Hindex. simpl.
    rewrite Ht. simpl. by rewrite Hty.
  - unfold Preprocess. simpl. unfold GetTensorIndex. simpl. rewrite Hidx.
    simpl. unfold populate_tensor. rewrite Ht. simpl.
    unfold PopulateTensor_string. by rewrite Hty.
  - unfold inputs'. rewrite (GetInput_set_input _ _ t) by done.
    by rewrite decide_True.
  - intros j Hj. unfold inputs'. rewrite (GetInput_set_input _ _ t) by done.
    by rewrite decide_False.
Qed.


Lemma Passthrough_end_to_end_witness :
  Init Sample.bert_collaborators (Sample.fresh [0]) Sample.string_inputs
  = Some (OkStatus, Sample.string_preprocessor)
  ∧ Preprocess Sample.string_preprocessor Sample.string_inputs "hello"
    = Some (OkStatus, Sample.string_preprocessor,
            [mkTensor "input_text" kTfLiteString [1] 0 (StringData "hello")]).
Proof.
  destruct (Passthrough_end_to_end Sample.bert_collaborators
              (Sample.fresh [0]) Sample.string_inputs 0
              (mkTensor "input_text" kTfLiteString [1] 0 Unwritten) "hello"
              eq_refl eq_refl eq_refl) as (HInit & _ & Hcall & _).
  split; [exact HInit | exact Hcall].
Defined.

(** X3.  One buffer that is not a string buffer.  When the search finds
    no regex-tokenizer options, [Init] still commits the variant Regex and
    calls the factory on a null process unit: its status is the factory's.
    When the search finds options on a 32-bit integer buffer, the factory
    is called on them.  When the search itself fails, [Init] returns that
    error and leaves the members as they were. *)
Theorem Init_single_numeric (c : Collaborators) (p : TextPreprocessor)
    (inputs : Inputs) (index : Z) (t : TfLiteTensor) :
  tensor_indices_ p = [index] ->
  GetInput inputs index = Some t ->
  type t ≠ kTfLiteString ->
  let made (process_unit : option ProcessUnit) :=
    match CreateTokenizerFromProcessUnit c process_unit with
    | StatusOk tk =>
        (OkStatus, set_tokenizer_ (Some tk) (set_tokenzier_type_ kRegex p))
    | StatusErr e => (e, set_tokenzier_type_ kRegex p)
    end in
  (GetTensorMetadata c index = None
   ∨ (∃ tensor_metadata,
        GetTensorMetadata c index = Some tensor_metadata
        ∧ FindFirstProcessUnit c tensor_metadata
            ProcessUnitOptions_RegexTokenizerOptions = StatusOk None) ->
   Init c p inputs = Some (made None))
  ∧ (∀ tensor_metadata tokenizer_metadata,
       GetTensorMetadata c index = Some tensor_metadata ->
       FindFirstProcessUnit c tensor_metadata
         ProcessUnitOptions_RegexTokenizerOptions
       = StatusOk (Some tokenizer_metadata) ->
       type t = kTfLiteInt32 ->
       Init c p inputs = Some (made (Some tokenizer_metadata)))
  ∧ (∀ tensor_metadata e,
       GetTensorMetadata c index = Some tensor_metadata ->
       FindFirstProcessUnit c tensor_metadata
         ProcessUnitOptions_RegexTokenizerOptions = StatusErr e ->
       Init c p inputs = Some (e, p)).
Proof.
  intros Hidx Ht Hty made.
  assert (GetTensorIndex p = Some index) as Hindex
    by (unfold GetTensorIndex; by rewrite Hidx).
  split; [| split].
  - intros Hnone.
    rewrite (Init_after_search c p inputs index t (StatusOk None));
      [done.. |].
    unfold TryFindRegexTokenizerMetadata. rewrite Hindex. simpl.
    by destruct Hnone as [-> | (md & -> & ->)].
  - intros md pu Hmd Hfind Hint.
    rewrite (Init_after_search c p inputs index t (StatusOk (Some pu)));
      [done.. |].
    by apply (TryFindRegexTokenizerMetadata_found c p inputs index t md).
  - intros md e Hmd Hfind.
    rewrite (Init_after_search c p inputs index t (StatusErr e));
      [done.. |].
    unfold TryFindRegexTokenizerMetadata. rewrite Hindex. simpl.
    by rewrite Hmd, Hfind.
Qed.

Lemma Init_single_numeric_witness :
  kTfLiteInt32 ≠ kTfLiteString
  ∧ Init Sample.regex_collaborators (Sample.fresh [0]) Sample.regex_inputs
    = Some (OkStatus, Sample.regex_preprocessor)
  ∧ Init Sample.bert_collaborators (Sample.fresh [0]) Sample.regex_inputs
    = Some (CreateStatusWithPayload kInvalidArgument
              "No metadata or input process unit found." kError,
            set_tokenzier_type_ kRegex (Sample.fresh [0])).
Proof.
  assert (kTfLiteInt32 ≠ kTfLiteString) as Hty by discriminate.
  split; [exact Hty |]. split.
  - exact (proj1 (proj2 (Init_single_numeric Sample.regex_collaborators
                           (Sample.fresh [0]) Sample.regex_inputs 0
                           (Sample.int32_tensor "input_text" [1; 5] 20)
                           eq_refl eq_refl Hty))
             (mkTensorMetadata "input_text" [Sample.regex_options])
             Sample.regex_options eq_refl eq_refl eq_refl).
  - exact (proj1 (Init_single_numeric Sample.bert_collaborators
                    (Sample.fresh [0]) Sample.regex_inputs 0
                    (Sample.int32_tensor "input_text" [1; 5] 20)
                    eq_refl eq_refl Hty) (or_introl eq_refl)).
Defined.



(** X5.  [Init] never changes [tensor_indices_]; when it fails it leaves
    [tokenizer_] as it was; and when it returns OK the variant is decided
    by the inputs alone: Passthrough for one string buffer, Regex for one
    buffer of another type, Bert for three buffers (the search reporting
    its failures with a status that is not OK). *)
Theorem Init_invariants (c : Collaborators) (p : TextPreprocessor)
    (inputs : Inputs) s p' :
  Init c p inputs = Some (s, p') ->
  tensor_indices_ p' = tensor_indices_ p
  ∧ (ok s = false -> tokenizer_ p' = tokenizer_ p)
  ∧ ((∀ tensor_metadata options_type e,
        FindFirstProcessUnit c tensor_metadata options_type = StatusErr e ->
        ok e = false) ->
     ok s = true ->
     match tensor_indices_ p with
     | [index] =>
         ∃ t, GetInput inputs index = Some t
              ∧ tokenzier_type_ p'
                = if is_string (type t) then kNone else kRegex
     | [_; _; _] => tokenzier_type_ p' = kBert
     | _ => False
     end).
Proof.
  intros HInit.
  assert (∀ md q, Init_tokenizer c md q = (s, p') ->
            tensor_indices_ p' = tensor_indices_ q
            ∧ (ok s = false -> tokenizer_ p' = tokenizer_ q)
            ∧ tokenzier_type_ p' = tokenzier_type_ q) as Hmade.
  { intros md q. unfold Init_tokenizer.
    destruct (CreateTokenizerFromProcessUnit c md); intros [= <- <-]; done. }
  unfold Init in HInit.
  destruct (tensor_indices_ p) as [|i0 [|i1 [|i2 [|i3 rest]]]] eqn:Hidx;
    try (injection HInit as <- <-;
         split; [done | split; [done | intros _ Hok; discriminate Hok]]).
  - unfold GetTensor, GetTensorIndex in HInit. rewrite Hidx in HInit.
    simpl in HInit.
    destruct (GetInput inputs i0) as [t|] eqn:Ht; [| done]. simpl in HInit.
    destruct (is_string (type t)) eqn:Hstr.
    { injection HInit as <- <-. simpl.
      split; [done |]. split; [done |]. intros _ _. exists t.
      by rewrite Hstr. }
    destruct (TryFindRegexTokenizerMetadata c p inputs) as [[md|e]|] eqn:Htry;
      [| | done]; simpl in HInit.
    + injection HInit as HInit.
      destruct (Hmade _ _ HInit) as (H1 & H2 & H3). simpl in *.
      split; [by rewrite H1 |]. split; [done |]. intros _ _.
      exists t. by rewrite Hstr, H3.
    + injection HInit as <- <-. split; [done |].
      split; [done |]. intros Hfind Hok.
      by rewrite (TryFindRegexTokenizerMetadata_error c p inputs e Hfind Htry)
        in Hok.
  - simpl in HInit.
    repeat (destruct (GetLastDimSize inputs _); simpl in HInit); try done.
    match type of HInit with
    | context [if ?b then _ else _] => destruct b
    end.
    + injection HInit as <- <-. simpl.
      split; [done | split; [done | intros _ Hok; discriminate Hok]].
    + injection HInit as HInit.
      destruct (Hmade _ _ HInit) as (H1 & H2 & H3). simpl in *.
      split; [by rewrite H1 |]. split; [done |]. done.
Qed.

Lemma Init_invariants_witness :
  tensor_indices_ Sample.bert_preprocessor = [0; 1; 2]
  ∧ tokenzier_type_ Sample.bert_preprocessor = kBert.
Proof.
  destruct (Init_invariants Sample.bert_collaborators
              (Sample.fresh [0; 1; 2]) Sample.bert_inputs OkStatus
              Sample.bert_preprocessor eq_refl) as (Hidx & _ & Hvariant).
  split; [exact Hidx |].
  apply Hvariant; [| reflexivity].
  intros md ty e H. discriminate H.
Defined.

(** X6.  Three buffers that each hold [len] 32-bit integers, [len] at
    least two, and a factory that makes a tokenizer: [Init] returns OK, and
    every call on the preprocessor it leaves returns OK and leaves buffers
    on which the next call returns OK as well. *)
Theorem Init_bert_then_Preprocess (c : Collaborators) (p : TextPreprocessor)
    (inputs : Inputs) (index0 index1 index2 len : Z) (tk : Tokenizer) :
  tensor_indices_ p = [index0; index1; index2] ->
  let found := FindIndexByMetadataTensorName c (GetInputTensorMetadata c) in
  let ids := index_or (found kIdsTensorName) index0 in
  let mask := index_or (found kMaskTensorName) index1 in
  let segment_ids := index_or (found kSegmentIdsTensorName) index2 in
  GetLastDimSize inputs ids = Some len ->
  GetLastDimSize inputs mask = Some len ->
  GetLastDimSize inputs segment_ids = Some len ->
  2 <= len <= INT_MAX ->
  accepts_ints (Z.to_nat len) inputs ids ->
  accepts_ints (Z.to_nat len) inputs mask ->
  accepts_ints (Z.to_nat len) inputs segment_ids ->
  CreateTokenizerFromProcessUnit c
    (GetInputProcessUnit c kTokenizerProcessUnitIndex) = StatusOk tk ->
  ∃ p', Init c p inputs = Some (OkStatus, p')
        ∧ fits p' inputs
        ∧ ∀ text, ∃ inputs',
            Preprocess p' inputs text = Some (OkStatus, p', inputs')
            ∧ fits p' inputs'.
Proof.
  intros Hidx found ids mask seg Hids Hmask Hseg HL Ha1 Ha2 Ha3 Htk.
  pose proof (Init_bert_step c p inputs index0 index1 index2 len Hidx
                Hids Hmask Hseg) as HInit.
  unfold Init_tokenizer in HInit. rewrite Htk in HInit.
  eexists. split; [exact HInit |].
  set (p' := set_tokenizer_ _ _).
  assert (fits p' inputs) as Hfits.
  { unfold fits. simpl. split; [by eexists |]. done. }
  split; [done |]. intros text.
  destruct (BertPreprocess_fits p' inputs text eq_refl Hfits) as [X' HX'].
  exists X'. split; [done |].
  assert (Preprocess p' inputs text = Some (OkStatus, p', X')) as Hcall
    by done.
  unfold fits. simpl. split; [by eexists |]. split; [done |].
  assert (∀ j, accepts_ints (Z.to_nat len) inputs j ->
               accepts_ints (Z.to_nat len) X' j) as Hacc.
  { intros j (t & Ht & Hty & Hb).
    destruct (Preprocess_runs_writes _ _ _ _ _ _ Hcall)
      as (ws & Hws & _ & Hrun).
    apply (accepts_ints_erase _ inputs).
    - by eapply populate_all_GetInput.
    - by exists t. }
  auto.
Qed.

Lemma Init_bert_then_Preprocess_witness :
  2 <= 4 <= INT_MAX
  ∧ ∃ p', Init Sample.bert_collaborators (Sample.fresh [0; 1; 2])
            Sample.bert_inputs = Some (OkStatus, p')
          ∧ ∃ inputs', Preprocess p' Sample.bert_inputs "good film"
                       = Some (OkStatus, p', inputs').
Proof.
  assert (2 <= 4 <= INT_MAX) as HL by sample_range.
  split; [exact HL |].
  destruct (Init_bert_then_Preprocess Sample.bert_collaborators
              (Sample.fresh [0; 1; 2]) Sample.bert_inputs 0 1 2 4
              Sample.bert_tokenizer eq_refl eq_refl eq_refl eq_refl HL
              ltac:(sample_accepts (Sample.int32_tensor "ids" [1; 4] 16))
              ltac:(sample_accepts (Sample.int32_tensor "mask" [1; 4] 16))
              ltac:(sample_accepts
                      (Sample.int32_tensor "segment_ids" [1; 4] 16))
              eq_refl) as (p' & HInit & _ & Hcall).
  exists p'. split; [exact HInit |].
  destruct (Hcall "good film") as (X' & HX' & _). exists X'. exact HX'.
Defined.

(** X7.  One 32-bit integer buffer that holds as many integers as its
    sentence length, regex-tokenizer options attached and a factory that
    makes a regex tokenizer from them: [Init] returns OK with the variant
    Regex, and the first call returns OK and leaves the array of the Regex
    encoder in the buffer. *)
Theorem Init_regex_then_Preprocess (c : Collaborators) (p : TextPreprocessor)
    (inputs : Inputs) (index : Z) (t : TfLiteTensor) (L : Z)
    tensor_metadata tokenizer_metadata (tk : Tokenizer) rt :
  tensor_indices_ p = [index] ->
  GetInput inputs index = Some t ->
  type t = kTfLiteInt32 ->
  regex_max_sentence_length (dims t) = Some L ->
  L <= INT_MAX ->
  bytes t = 4 * L ->
  GetTensorMetadata c index = Some tensor_metadata ->
  FindFirstProcessUnit c tensor_metadata
    ProcessUnitOptions_RegexTokenizerOptions
  = StatusOk (Some tokenizer_metadata) ->
  CreateTokenizerFromProcessUnit c (Some tokenizer_metadata) = StatusOk tk ->
  as_RegexTokenizer tk = Some rt ->
  (is_Some (GetStartToken rt) -> 1 <= L) ->
  let p' := set_tokenizer_ (Some tk) (set_tokenzier_type_ kRegex p) in
  Init c p inputs = Some (OkStatus, p')
  ∧ ∀ text,
      Preprocess p' inputs text
      = Some (OkStatus, set_tokenizer_ None p',
              set_input index
                (set_data
                   (IntData (regex_expected tk rt (Z.to_nat L)
                               (Tokenize tk text))) t) inputs).
Proof.
  intros Hidx Ht Hty HL HLmax Hb Hmd Hfind Htk Hrt Hstart p'.
  assert (type t ≠ kTfLiteString) as Hstr by (by rewrite Hty).
  pose proof (regex_max_sentence_length_nonneg _ _ HL) as HL0.
  split.
  - rewrite (Init_after_search c p inputs index t
               (StatusOk (Some tokenizer_metadata))); [| done.. |].
    + unfold Init_tokenizer. by rewrite Htk.
    + by apply (TryFindRegexTokenizerMetadata_found c p inputs index t
                  tensor_metadata).
  - intros text.
    rewrite (RegexPreprocess_call p' inputs text tk rt index t L);
      [| done.. | |done | done | done | done].
    + rewrite (populate_ints_exact _ inputs index t); [done.. |].
      rewrite length_regex_expected. lia.
    + unfold GetTensorIndex. simpl. by rewrite Hidx.
Qed.

Lemma Init_regex_then_Preprocess_witness :
  5 <= INT_MAX
  ∧ Init Sample.regex_collaborators (Sample.fresh [0]) Sample.regex_inputs
    = Some (OkStatus, Sample.regex_preprocessor)
  ∧ Preprocess Sample.regex_preprocessor Sample.regex_inputs "good bad film"
    = Some (OkStatus, set_tokenizer_ None Sample.regex_preprocessor,
            [mkTensor "input_text" kTfLiteInt32 [1; 5] 20
               (IntData [1; 7; 2; 9; 0])]).
Proof.
  assert (5 <= INT_MAX) as HL by sample_range.
  split; [exact HL |].
  destruct (Init_regex_then_Preprocess Sample.regex_collaborators
              (Sample.fresh [0]) Sample.regex_inputs 0
              (Sample.int32_tensor "input_text" [1; 5] 20) 5
              (mkTensorMetadata "input_text" [Sample.regex_options])
              Sample.regex_options Sample.regex_tokenizer
              Sample.regex_accessors eq_refl eq_refl eq_refl eq_refl HL
              eq_refl eq_refl eq_refl eq_refl eq_refl ltac:(intros _; lia))
    as [HInit Hcall].
  split; [exact HInit | exact (Hcall "good bad film")].
Defined.

(* ------------------------------------------------------------------ *)
(** ** The arrays *)

(** X8.  The ids of the Bert encoder: the id of [CLS] at position 0, the
    id of the [i]-th kept subword at position [i + 1], the id of [SEP]
    behind the last kept subword, and [0] from there on; an id is the
    vocabulary id, or [0] where the lookup fails. *)
Theorem bert_encode_ids_layout (tk : Tokenizer) (L : Z) (text : string) :
  2 <= L <= INT_MAX ->
  let subwords := Tokenize tk (AsciiStrToLower text) in
  let kept := Nat.min (length subwords) (Z.to_nat (L - 2)) in
  ∃ ids mask segment_ids,
    bert_encode tk L text = Some (ids, mask, segment_ids)
    ∧ ids !! 0%nat = Some (default 0 (LookupId tk kClassificationToken))
    ∧ (∀ i token, (i < kept)%nat -> subwords !! i = Some token ->
         ids !! S i = Some (default 0 (LookupId tk token)))
    ∧ ids !! S kept = Some (default 0 (LookupId tk kSeparator))
    ∧ (∀ i, (kept + 2 <= i < Z.to_nat L)%nat -> ids !! i = Some 0).
Proof.
  intros HL subwords kept.
  pose proof (bert_encode_eq tk L text HL) as Heq. cbv zeta in Heq.
  fold subwords in Heq.
  assert (bert_tokens (L - 2) subwords
          = kClassificationToken :: take kept subwords ++ [kSeparator])
    as Htok.
  { unfold bert_tokens. by rewrite query_tokens_take. }
  rewrite Htok in Heq.
  assert (length (take kept subwords) = kept) as Hk
    by (rewrite length_take; unfold kept; lia).
  eexists _, _, _. split; [exact Heq |].
  change (map (bert_id tk) ?l) with (bert_id tk <$> l).
  rewrite fmap_cons, fmap_app. simpl.
  split; [done |]. split; [| split].
  - intros i token Hi Htoken.
    rewrite lookup_app_l
      by (rewrite length_app, !length_fmap, Hk; simpl; lia).
    rewrite lookup_app_l by (rewrite length_fmap, Hk; lia).
    rewrite list_lookup_fmap, lookup_take_lt by lia.
    by rewrite Htoken.
  - rewrite lookup_app_l
      by (rewrite length_app, !length_fmap, Hk; simpl; lia).
    rewrite lookup_app_r by (rewrite length_fmap, Hk; lia).
    rewrite length_fmap, Hk, Nat.sub_diag. done.
  - intros i Hi. destruct i as [|i]; [lia |]. simpl.
    rewrite lookup_app_r
      by (rewrite length_app, !length_fmap, Hk; simpl; lia).
    apply lookup_replicate_2.
    rewrite !length_app, !length_fmap, Hk. simpl. lia.
Qed.


Lemma bert_encode_ids_layout_witness :
  2 <= 4 <= INT_MAX
  ∧ ∃ ids mask segment_ids,
      bert_encode Sample.bert_tokenizer 4 "Good BAD film and more"
      = Some (ids, mask, segment_ids)
      ∧ ids !! 0%nat = Some 101 ∧ ids !! 3%nat = Some 102.
Proof.
  assert (2 <= 4 <= INT_MAX) as HL by sample_range.
  split; [exact HL |].
  destruct (bert_encode_ids_layout Sample.bert_tokenizer 4
              "Good BAD film and more" HL)
    as (ids & mask & seg & Henc & Hcls & _ & Hsep & _).
  exists ids, mask, seg. split; [exact Henc |]. split; [exact Hcls |].
  exact Hsep.
Defined.

(** X9.  The arrays of the Bert encoder depend on the text only through
    the first [L - 2] subwords of its lower-cased form: two texts that
    agree there get the same arrays, and a text and its lower-cased form
    get the same arrays. *)
Theorem bert_encode_depends_on_prefix (tk : Tokenizer) (L : Z)
    (text text' : string) :
  2 <= L <= INT_MAX ->
  (take (Z.to_nat (L - 2)) (Tokenize tk (AsciiStrToLower text))
   = take (Z.to_nat (L - 2)) (Tokenize tk (AsciiStrToLower text')) ->
   bert_encode tk L text = bert_encode tk L text')
  ∧ bert_encode tk L (AsciiStrToLower text) = bert_encode tk L text.
Proof.
  intros HL.
  assert (∀ a b,
            take (Z.to_nat (L - 2)) (Tokenize tk (AsciiStrToLower a))
            = take (Z.to_nat (L - 2)) (Tokenize tk (AsciiStrToLower b)) ->
            bert_encode tk L a = bert_encode tk L b) as Hpre.
  { intros a b Htake. rewrite !bert_encode_eq by done. cbv zeta.
    by rewrite !bert_tokens_take, Htake by done. }
  split; [apply Hpre |]. apply Hpre. by rewrite AsciiStrToLower_idemp.
Qed.

Lemma bert_encode_depends_on_prefix_witness :
  2 <= 4 <= INT_MAX
  ∧ bert_encode Sample.bert_tokenizer 4 "Good film and more"
    = bert_encode Sample.bert_tokenizer 4 "GOOD FILM or less".
Proof.
  assert (2 <= 4 <= INT_MAX) as HL by sample_range.
  split; [exact HL |].
  exact (proj1 (bert_encode_depends_on_prefix Sample.bert_tokenizer 4
                  "Good film and more" "GOOD FILM or less" HL) eq_refl).
Defined.

(** X10.  The array of the Regex encoder depends on the text only
    through the subwords that find room: two texts that agree on them get
    the same array; and when the subwords fill the array it holds no
    padding, only the start id and the ids of those subwords. *)
Theorem regex_encode_depends_on_prefix (tk : Tokenizer) (rt : RegexTokenizer)
    (L : Z) (text text' : string) :
  0 <= L <= INT_MAX ->
  (is_Some (GetStartToken rt) -> 1 <= L) ->
  (take (Z.to_nat L - first_token_index rt) (Tokenize tk text)
   = take (Z.to_nat L - first_token_index rt) (Tokenize tk text') ->
   regex_encode tk rt L text = regex_encode tk rt L text')
  ∧ ((Z.to_nat L <= first_token_index rt + length (Tokenize tk text))%nat ->
     regex_encode tk rt L text
     = Some (option_list (GetStartToken rt)
               ++ map (regex_id tk rt)
                    (take (Z.to_nat L - first_token_index rt)
                       (Tokenize tk text)))).
Proof.
  intros HL Hstart. split.
  - intros Htake. rewrite !regex_encode_eq by done.
    by rewrite (regex_expected_prefix _ _ _ _ _ Htake).
  - intros Hfull. rewrite regex_encode_eq by done. f_equal.
    unfold regex_expected, first_token_index in *.
    set (pre := option_list (GetStartToken rt)) in *.
    assert (length pre <= Z.to_nat L)%nat as Hpre.
    { unfold pre. destruct (GetStartToken rt) eqn:Hst; simpl; [| lia].
      assert (1 <= L) by (apply Hstart; eauto). lia. }
    rewrite take_app, length_app, length_map.
    rewrite (take_ge pre) by done.
    change (map (regex_id tk rt) ?l) with (regex_id tk rt <$> l).
    rewrite <- fmap_take.
    replace (Z.to_nat L - (length pre + length (Tokenize tk text)))%nat
      with 0%nat by lia.
    simpl. by rewrite app_nil_r.
Qed.

Lemma regex_encode_depends_on_prefix_witness :
  0 <= 3 <= INT_MAX
  ∧ regex_encode Sample.regex_tokenizer Sample.regex_accessors 3
      "good film and more"
    = regex_encode Sample.regex_tokenizer Sample.regex_accessors 3
        "good film"
  ∧ regex_encode Sample.regex_tokenizer Sample.regex_accessors 3
      "good film and more" = Some [1; 7; 9].
Proof.
  assert (0 <= 3 <= INT_MAX) as HL by sample_range.
  assert (is_Some (GetStartToken Sample.regex_accessors) -> 1 <= 3)
    as Hstart by (intros _; lia).
  split; [exact HL |]. split.
  - exact (proj1 (regex_encode_depends_on_prefix Sample.regex_tokenizer
                    Sample.regex_accessors 3 "good film and more"
                    "good film" HL Hstart) eq_refl).
  - apply (proj2 (regex_encode_depends_on_prefix Sample.regex_tokenizer
                    Sample.regex_accessors 3 "good film and more"
                    "good film" HL Hstart)).
    vm_compute. lia.
Defined.

(* ------------------------------------------------------------------ *)
(** ** The buffers *)



(** X12.  After a call of the Bert variant on buffers that fit, the
    buffer of the segment ids holds the zeros; the buffer of the mask holds
    the mask unless it is the buffer of the segment ids, which is written
    later; the buffer of the ids holds the ids unless it is one of the
    other two. *)
Theorem BertPreprocess_buffers (p : TextPreprocessor) (inputs : Inputs)
    (text : string) :
  tokenzier_type_ p = kBert ->
  fits p inputs ->
  ∃ tk ids mask segment_ids inputs1,
    tokenizer_ p = Some tk
    ∧ bert_encode tk (bert_max_seq_len_ p) text
      = Some (ids, mask, segment_ids)
    ∧ Preprocess p inputs text = Some (OkStatus, p, inputs1)
    ∧ data <$> GetInput inputs1 (segment_ids_tensor_index_ p)
      = Some (IntData segment_ids)
    ∧ (mask_tensor_index_ p ≠ segment_ids_tensor_index_ p ->
       data <$> GetInput inputs1 (mask_tensor_index_ p)
       = Some (IntData mask))
    ∧ (ids_tensor_index_ p ≠ mask_tensor_index_ p ->
       ids_tensor_index_ p ≠ segment_ids_tensor_index_ p ->
       data <$> GetInput inputs1 (ids_tensor_index_ p)
       = Some (IntData ids)).
Proof.
  intros Hty Hfits. unfold fits in Hfits. rewrite Hty in Hfits.
  destruct Hfits as ([tk Htk] & HL & Hids & Hmask & Hseg).
  destruct (bert_encode_lengths tk _ text HL)
    as (ids & mask & seg & Henc & Hl1 & Hl2 & Hl3).
  set (L := Z.to_nat (bert_max_seq_len_ p)) in *.
  destruct Hids as (t1 & Ht1 & Hty1 & Hb1).
  set (X1 := set_input (ids_tensor_index_ p) (set_data (IntData ids) t1)
               inputs).
  assert (accepts_ints L X1 (mask_tensor_index_ p)) as (t2 & Ht2 & Hty2 & Hb2)
    by (by apply accepts_ints_set_input).
  set (X2 := set_input (mask_tensor_index_ p) (set_data (IntData mask) t2) X1).
  assert (accepts_ints L X2 (segment_ids_tensor_index_ p))
    as (t3 & Ht3 & Hty3 & Hb3).
  { apply accepts_ints_set_input; [done |].
    by apply accepts_ints_set_input. }
  set (X3 := set_input (segment_ids_tensor_index_ p)
               (set_data (IntData seg) t3) X2).
  exists tk, ids, mask, seg, X3.
  split; [done |]. split; [done |]. split.
  { unfold Preprocess. rewrite Hty, BertPreprocess_unfold.
    destruct Hmask as (u2 & -> & _), Hseg as (u3 & -> & _).
    rewrite Ht1, Htk. cbn [mbind option_bind]. rewrite Henc.
    cbn [mbind option_bind].
    unfold bert_writes, populate_all, return_if_error.
    rewrite (populate_ints_exact ids inputs _ t1) by (done || by rewrite Hl1).
    cbn [mbind option_bind ok code OkStatus]. fold X1.
    rewrite (populate_ints_exact mask X1 _ t2) by (done || by rewrite Hl2).
    cbn [mbind option_bind ok code OkStatus]. fold X2.
    rewrite (populate_ints_exact seg X2 _ t3) by (done || by rewrite Hl3).
    done. }
  split; [| split].
  - unfold X3. rewrite (GetInput_set_input _ _ t3) by done.
    by rewrite decide_True.
  - intros Hne. unfold X3. rewrite (GetInput_set_input _ _ t3) by done.
    rewrite decide_False by done.
    unfold X2. rewrite (GetInput_set_input _ _ t2) by done.
    by rewrite decide_True.
  - intros Hne1 Hne2. unfold X3.
    rewrite (GetInput_set_input _ _ t3) by done.
    rewrite decide_False by done.
    unfold X2. rewrite (GetInput_set_input _ _ t2) by done.
    rewrite decide_False by done.
    unfold X1. rewrite (GetInput_set_input _ _ t1) by done.
    by rewrite decide_True.
Qed.


Lemma BertPreprocess_buffers_witness :
  tokenzier_type_ MoreSamples.bert_preprocessor_shared = kBert
  ∧ fits MoreSamples.bert_preprocessor_shared Sample.bert_inputs
  ∧ ∃ inputs1,
      Preprocess MoreSamples.bert_preprocessor_shared Sample.bert_inputs
        "good film" = Some (OkStatus, MoreSamples.bert_preprocessor_shared,
                            inputs1)
      ∧ data <$> GetInput inputs1 1 = Some (IntData [0; 0; 0; 0]).
Proof.
  assert (fits MoreSamples.bert_preprocessor_shared Sample.bert_inputs)
    as Hfits.
  { split; [by eexists |]. split; [sample_range |].
    split; [sample_accepts (Sample.int32_tensor "ids" [1; 4] 16) |].
    split; sample_accepts (Sample.int32_tensor "mask" [1; 4] 16). }
  split; [reflexivity |]. split; [exact Hfits |].
  destruct (BertPreprocess_buffers MoreSamples.bert_preprocessor_shared
              Sample.bert_inputs "good film" eq_refl Hfits)
    as (tk & ids & mask & seg & X1 & Htk & Henc & Hcall & Hseg & _).
  exists X1. split; [exact Hcall |].
  injection Htk as <-. vm_compute in Henc. injection Henc as _ _ <-.
  exact Hseg.
Defined.

(** X13.  A call of the Bert variant whose ids buffer accepts its array
    and whose mask buffer, another buffer, does not: the call returns the
    error of the write of the mask, the ids buffer holds the new ids, and
    nothing else changed: the segment ids are not written. *)
Theorem BertPreprocess_mask_rejected (p : TextPreprocessor)
    (inputs : Inputs) (text : string) tk t1 t2 t3 :
  tokenzier_type_ p = kBert ->
  tokenizer_ p = Some tk ->
  2 <= bert_max_seq_len_ p <= INT_MAX ->
  GetInput inputs (ids_tensor_index_ p) = Some t1 ->
  type t1 = kTfLiteInt32 -> bytes t1 = 4 * bert_max_seq_len_ p ->
  GetInput inputs (mask_tensor_index_ p) = Some t2 ->
  GetInput inputs (segment_ids_tensor_index_ p) = Some t3 ->
  mask_tensor_index_ p ≠ ids_tensor_index_ p ->
  ¬ (type t2 = kTfLiteInt32 ∧ bytes t2 = 4 * bert_max_seq_len_ p) ->
  ∃ e ids mask segment_ids,
    bert_encode tk (bert_max_seq_len_ p) text = Some (ids, mask, segment_ids)
    ∧ PopulateTensor_ints mask t2 = StatusErr e
    ∧ ok e = false
    ∧ Preprocess p inputs text
      = Some (e, p,
              set_input (ids_tensor_index_ p) (set_data (IntData ids) t1)
                inputs).
Proof.
  intros Hty Htk HL Ht1 Hty1 Hb1 Ht2 Ht3 Hne Hrej.
  destruct (bert_encode_lengths tk _ text HL)
    as (ids & mask & seg & Henc & Hl1 & Hl2 & Hl3).
  destruct (PopulateTensor_ints_rejects mask t2) as (e & He & Hoke).
  { rewrite Hl2. replace (Z.of_nat (Z.to_nat (bert_max_seq_len_ p)))
      with (bert_max_seq_len_ p) by lia. done. }
  exists e, ids, mask, seg. split; [done |]. split; [done |].
  split; [done |].
  unfold Preprocess. rewrite Hty, BertPreprocess_unfold.
  rewrite Ht1, Ht2, Ht3, Htk. cbn [mbind option_bind]. rewrite Henc.
  cbn [mbind option_bind].
  unfold bert_writes, populate_all, return_if_error.
  rewrite (populate_ints_exact ids inputs _ t1) by (done || rewrite Hl1; lia).
  cbn [mbind option_bind ok code OkStatus].
  rewrite (populate_failed _ _ _ t2 e); [| | done].
  - cbn [mbind option_bind]. by rewrite Hoke.
  - rewrite (GetInput_set_input _ _ t1) by done.
    by rewrite decide_False by done.
Qed.


Lemma BertPreprocess_mask_rejected_witness :
  ¬ (kTfLiteFloat32 = kTfLiteInt32 ∧ 16 = 4 * 4)
  ∧ ∃ e inputs1,
      Preprocess Sample.bert_preprocessor MoreSamples.bert_inputs_float_mask
        "good film" = Some (e, Sample.bert_preprocessor, inputs1)
      ∧ ok e = false
      ∧ data <$> GetInput inputs1 0 = Some (IntData [101; 7; 9; 102])
      ∧ data <$> GetInput inputs1 2 = Some Unwritten.
Proof.
  assert (¬ (kTfLiteFloat32 = kTfLiteInt32 ∧ 16 = 4 * 4)) as Hrej
    by (intros [H _]; discriminate H).
  split; [exact Hrej |].
  destruct (BertPreprocess_mask_rejected Sample.bert_preprocessor
              MoreSamples.bert_inputs_float_mask "good film"
              Sample.bert_tokenizer
              (Sample.int32_tensor "ids" [1; 4] 16)
              (mkTensor "mask" kTfLiteFloat32 [1; 4] 16 Unwritten)
              (Sample.int32_tensor "segment_ids" [1; 4] 16)
              eq_refl eq_refl ltac:(sample_range) eq_refl eq_refl eq_refl
              eq_refl eq_refl ltac:(discriminate) Hrej)
    as (e & ids & mask & seg & Henc & _ & Hok & Hcall).
  eexists e, _. split; [exact Hcall |]. split; [exact Hok |].
  vm_compute in Henc. injection Henc as <- _ _.
  split; reflexivity.
Defined.

(** X14.  A call of the Regex variant on a buffer of sentence length
    [L]: when the buffer is a 32-bit integer buffer of [4 * L] bytes the
    call returns OK and the buffer holds the array; otherwise the call
    returns the error of the write and leaves every buffer as it was.  In
    both cases [tokenizer_] is null afterwards. *)
Theorem RegexPreprocess_outcome (p : TextPreprocessor) (inputs : Inputs)
    (text : string) tk rt index t L :
  tokenzier_type_ p = kRegex ->
  tokenizer_ p = Some tk -> as_RegexTokenizer tk = Some rt ->
  GetTensorIndex p = Some index ->
  GetInput inputs index = Some t ->
  regex_max_sentence_length (dims t) = Some L ->
  L <= INT_MAX ->
  (is_Some (GetStartToken rt) -> 1 <= L) ->
  let input_tokens := regex_expected tk rt (Z.to_nat L) (Tokenize tk text) in
  (type t = kTfLiteInt32 ∧ bytes t = 4 * L ->
   Preprocess p inputs text
   = Some (OkStatus, set_tokenizer_ None p,
           set_input index (set_data (IntData input_tokens) t) inputs))
  ∧ (¬ (type t = kTfLiteInt32 ∧ bytes t = 4 * L) ->
     ∃ e, PopulateTensor_ints input_tokens t = StatusErr e
          ∧ ok e = false
          ∧ Preprocess p inputs text
            = Some (e, set_tokenizer_ None p, inputs)).
Proof.
  intros Hty Htk Hrt Hidx Ht HL HLmax Hstart arr.
  pose proof (regex_max_sentence_length_nonneg _ _ HL) as HL0.
  assert (Z.of_nat (length arr) = L) as Hlen
    by (unfold arr; rewrite length_regex_expected; lia).
  rewrite (RegexPreprocess_call p inputs text tk rt index t L) by done.
  fold arr. split.
  - intros [Hty1 Hb].
    by rewrite (populate_ints_exact arr inputs index t)
      by (done || by rewrite Hlen).
  - intros Hrej.
    destruct (PopulateTensor_ints_rejects arr t) as (e & He & Hoke);
      [by rewrite Hlen |].
    exists e. split; [done |]. split; [done |].
    by rewrite (populate_failed _ _ _ t e).
Qed.

Lemma RegexPreprocess_outcome_witness :
  5 <= INT_MAX
  ∧ Preprocess Sample.regex_preprocessor Sample.regex_inputs "good bad film"
    = Some (OkStatus, set_tokenizer_ None Sample.regex_preprocessor,
            [mkTensor "input_text" kTfLiteInt32 [1; 5] 20
               (IntData [1; 7; 2; 9; 0])]).
Proof.
  assert (5 <= INT_MAX) as HL by sample_range.
  split; [exact HL |].
  exact (proj1 (RegexPreprocess_outcome Sample.regex_preprocessor
                  Sample.regex_inputs "good bad film"
                  Sample.regex_tokenizer Sample.regex_accessors 0
                  (Sample.int32_tensor "input_text" [1; 5] 20) 5
                  eq_refl eq_refl eq_refl eq_refl eq_refl eq_refl HL
                  ltac:(intros _; lia))
           (conj eq_refl eq_refl)).
Defined.

(** X15.  For the Passthrough and the Bert variant on buffers that fit,
    a call does not depend on the calls before it: after a call on a first
    text, a call on a second text returns what it returns on the buffers
    as they were before the first. *)
Theorem Preprocess_history_independent (p : TextPreprocessor)
    (inputs : Inputs) (text1 text2 : string) :
  tokenzier_type_ p ≠ kRegex ->
  fits p inputs ->
  ∃ inputs1 inputs2,
    Preprocess p inputs text1 = Some (OkStatus, p, inputs1)
    ∧ Preprocess p inputs text2 = Some (OkStatus, p, inputs2)
    ∧ Preprocess p inputs1 text2 = Some (OkStatus, p, inputs2).
Proof.
  intros Hty Hfits.
  assert (∀ text, ∃ X', Preprocess p inputs text = Some (OkStatus, p, X'))
    as Hcall.
  { intros text. destruct (tokenzier_type_ p) eqn:Hp; [| done |].
    - by apply Passthrough_fits.
    - destruct (BertPreprocess_fits p inputs text Hp Hfits) as [X' HX'].
      exists X'. unfold Preprocess. by rewrite Hp. }
  destruct (Hcall text1) as [X1 H1], (Hcall text2) as [X2 H2].
  exists X1, X2. split; [done |]. split; [done |].
  unfold Preprocess in *.
  destruct (tokenzier_type_ p); [| done |].
  - destruct (GetTensorIndex p) as [index|]; [| done].
    cbn [mbind option_bind] in *.
    destruct (populate_tensor (PopulateTensor_string text1) index inputs)
      as [[s1 Y1]|] eqn:Hp1; [| done].
    destruct (populate_tensor (PopulateTensor_string text2) index inputs)
      as [[s2 Y2]|] eqn:Hp2; [| done].
    cbn [mbind option_bind] in *.
    injection H1 as -> ->. injection H2 as -> ->.
    rewrite <- populate_all_single in Hp1, Hp2 |- * by apply blind_string.
    assert (∀ text, Forall (λ iw, blind iw.2)
                      [(index, PopulateTensor_string text)]) as Hws
      by (intros text; repeat constructor; apply blind_string).
    by rewrite (populate_all_overwrites _ _ _ _ _ _ _ (Hws text1)
                  (Hws text2) eq_refl Hp1 eq_refl Hp2 eq_refl).
  - rewrite !BertPreprocess_unfold in *.
    destruct (GetInput inputs (ids_tensor_index_ p)) eqn:Ht1; [| done].
    destruct (GetInput inputs (mask_tensor_index_ p)) eqn:Ht2; [| done].
    destruct (GetInput inputs (segment_ids_tensor_index_ p)) eqn:Ht3;
      [| done].
    destruct (tokenizer_ p) as [tk|]; [| done].
    cbn [mbind option_bind] in *.
    destruct (bert_encode tk _ text1) as [[[ids1 mask1] seg1]|]; [| done].
    destruct (bert_encode tk _ text2) as [[[ids2 mask2] seg2]|]; [| done].
    cbn [mbind option_bind] in *.
    destruct (populate_all (bert_writes p ids1 mask1 seg1) inputs)
      as [[s1 Y1]|] eqn:Hrun1; [| done].
    destruct (populate_all (bert_writes p ids2 mask2 seg2) inputs)
      as [[s2 Y2]|] eqn:Hrun2; [| done].
    cbn [mbind option_bind] in *.
    injection H1 as -> ->. injection H2 as -> ->.
    pose proof (blind_bert_writes p ids1 mask1 seg1) as Hws1.
    pose proof (blind_bert_writes p ids2 mask2 seg2) as Hws2.
    pose proof (populate_all_GetInput _ _ _ _ (ids_tensor_index_ p)
                  Hws1 Hrun1) as E1.
    pose proof (populate_all_GetInput _ _ _ _ (mask_tensor_index_ p)
                  Hws1 Hrun1) as E2.
    pose proof (populate_all_GetInput _ _ _ _ (segment_ids_tensor_index_ p)
                  Hws1 Hrun1) as E3.
    destruct (GetInput_defined _ _ _ E1) as [? ->]; [by rewrite Ht1 |].
    destruct (GetInput_defined _ _ _ E2) as [? ->]; [by rewrite Ht2 |].
    destruct (GetInput_defined _ _ _ E3) as [? ->]; [by rewrite Ht3 |].
    cbn [mbind option_bind].
    by rewrite (populate_all_overwrites _ _ _ _ _ _ _ Hws1 Hws2 eq_refl
                  Hrun1 eq_refl Hrun2 eq_refl).
Qed.


Lemma Preprocess_history_independent_witness :
  tokenzier_type_ Sample.bert_preprocessor ≠ kRegex
  ∧ fits Sample.bert_preprocessor Sample.bert_inputs
  ∧ ∃ inputs1 inputs2,
      Preprocess Sample.bert_preprocessor Sample.bert_inputs "good"
      = Some (OkStatus, Sample.bert_preprocessor, inputs1)
      ∧ Preprocess Sample.bert_preprocessor Sample.bert_inputs "film"
        = Some (OkStatus, Sample.bert_preprocessor, inputs2)
      ∧ Preprocess Sample.bert_preprocessor inputs1 "film"
        = Some (OkStatus, Sample.bert_preprocessor, inputs2).
Proof.
  assert (tokenzier_type_ Sample.bert_preprocessor ≠ kRegex) as Hty
    by discriminate.
  split; [exact Hty |]. split; [exact sample_bert_fits |].
  exact (Preprocess_history_independent Sample.bert_preprocessor
           Sample.bert_inputs "good" "film" Hty sample_bert_fits).
Defined.
